(** * Session-context comparison of the MagicAuth SDK

  A shallow embedding of the [compare] object of [src/index.ts] (and of the
  legacy CommonJS module it replaces), with the properties that the
  specification of the context-comparison engine states about it.

  [compare.userAgents] and [compare.ipAddresses] are thin policies over two
  npm packages, [ua-parser-js] and [ip].  Neither package is part of the
  repository, so both enter the embedding as interfaces whose operations may
  return a value or raise, the way any JavaScript call may. *)

From Stdlib Require Import Bool List String Ascii ZArith Lia.
From Stdlib Require Import DecimalString.
Import ListNotations.
Open Scope string_scope.

(* ================================================================== *)
(** ** JavaScript values and evaluation *)
(* ================================================================== *)

Module JS.

(** A JavaScript [Error], identified by its message. *)
Record Error : Type := mkError { message : string }.

(** How the evaluation of a call ends: with a value, or by raising. *)
Inductive completion (A : Type) : Type :=
| Return (a : A)
| Throw (e : Error).
Arguments Return {A} a.
Arguments Throw {A} e.

(** A value of type [string | undefined]; [None] is [undefined]. *)
Definition optstring : Type := option string.

(** [x === y] on [string | undefined]: no coercion takes place, two strings
    are compared character by character, [undefined] equals only itself. *)
Definition strict_eq (x y : optstring) : bool :=
  match x, y with
  | Some a, Some b => String.eqb a b
  | None, None => true
  | _, _ => false
  end.

(** [x !== y]. *)
Definition strict_neq (x y : optstring) : bool := negb (strict_eq x y).

(** One call of [log.debug]: the format and the values handed to it. *)
Record LogRecord : Type := mkLog { format : string; args : list optstring }.

(** A computation: the trace it hands to the logger, and its completion. *)
Definition Exec (A : Type) : Type := (list LogRecord * completion A)%type.

Definition ret {A} (a : A) : Exec A := ([], Return a).

Definition bind {A B} (m : Exec A) (k : A -> Exec B) : Exec B :=
  match m with
  | (l, Return a) => let (l', r) := k a in ((l ++ l')%list, r)
  | (l, Throw e) => (l, Throw e)
  end.

(** A call into a library that does not log. *)
Definition call {A} (c : completion A) : Exec A := ([], c).

(** [log.debug(format, ...args)]. *)
Definition log_debug (fmt : string) (vs : list optstring) : Exec unit :=
  ([mkLog fmt vs], Return tt).

(** [a || b] on booleans: [b] is evaluated only when [a] is [false]. *)
Definition or_else (a b : Exec bool) : Exec bool :=
  bind a (fun x => if x then ret true else b).

(** The completion of a computation, its trace left aside. *)
Definition value {A} (m : Exec A) : completion A := snd m.

(** The trace of a computation. *)
Definition trace {A} (m : Exec A) : list LogRecord := fst m.

End JS.

Import JS.

Notation "x <- m ;; k" := (bind m (fun x => k))
(at level 61, m at next level, right associativity).
Notation "m ;;; k" := (bind m (fun _ => k))
(at level 61, right associativity).
Notation "a ||| b" := (or_else a b) (at level 50, left associativity).

(* ================================================================== *)
(** ** The two packages *)
(* ================================================================== *)

Module UAParser.

(** Modelled from the spec: the parsed user agent, the value of
    [getResult()], whose declaration lies in [ua-parser-js] and not in the
    repository.  [compare] reads [cpu.architecture], [os.name] and
    [browser.name]; the other attributes are the version numbers, the device
    strings and the rest that the specification says are not compared.
    Every attribute is a [string | undefined]. *)
Record IBrowser : Type :=
  { browser_name : optstring; browser_version : optstring;
    browser_major : optstring }.
Record IDevice : Type :=
  { device_model : optstring; device_type : optstring;
    device_vendor : optstring }.
Record IEngine : Type :=
  { engine_name : optstring; engine_version : optstring }.
Record IOS : Type := { os_name : optstring; os_version : optstring }.
Record ICPU : Type := { cpu_architecture : optstring }.
Record IResult : Type :=
  { ua : string; browser : IBrowser; device : IDevice; engine : IEngine;
    os : IOS; cpu : ICPU }.

(** The package as [compare] uses it: [new UserAgentParser(s).getResult()]. *)
Record Library : Type := { getResult : string -> completion IResult }.

End UAParser.

Module Ip.

(** The package as [compare] uses it: [ip.isPrivate(addr)] and
    [ip.isEqual(a, b)]. *)
Record Library : Type :=
  { isPrivate : string -> completion bool;
    isEqual : string -> string -> completion bool }.

End Ip.

Import UAParser.

(* ================================================================== *)
(** ** [compare], as [src/index.ts] has it *)
(* ================================================================== *)

Module compare.
Section compare.

Variable UserAgentParser : UAParser.Library.
Variable ip : Ip.Library.

Definition userAgents_format : string :=
  "Comparing user agents\n    %s\n    %s\n    %20.20s = %s\n    %20.20s = %s\n    %20.20s = %s".

Definition userAgents (request_user_agent session_user_agent : string)
  : Exec bool :=
  request_ua <- call (getResult UserAgentParser request_user_agent) ;;
  session_ua <- call (getResult UserAgentParser session_user_agent) ;;
  log_debug userAgents_format
    [ Some request_user_agent; Some session_user_agent;
      cpu_architecture (cpu request_ua); cpu_architecture (cpu session_ua);
      os_name (os request_ua); os_name (os session_ua);
      browser_name (browser request_ua); browser_name (browser session_ua) ] ;;;
  if (strict_neq (cpu_architecture (cpu request_ua))
                 (cpu_architecture (cpu session_ua))
      || strict_neq (os_name (os request_ua)) (os_name (os session_ua))
      || strict_neq (browser_name (browser request_ua))
                    (browser_name (browser session_ua)))%bool
  then ret false
  else ret true.

Definition ipAddresses_format : string :=
  "Comparing user IPs\n    %20.20s = %s".

Definition ipAddresses (request_ip_address session_ip_address : string)
  : Exec bool :=
  log_debug ipAddresses_format
    [ Some request_ip_address; Some session_ip_address ] ;;;
  (call (Ip.isPrivate ip session_ip_address)
   ||| call (Ip.isEqual ip request_ip_address session_ip_address)).

End compare.
End compare.

(* ================================================================== *)
(** ** [compare], as the legacy CommonJS module has it *)
(* ================================================================== *)

Module legacy.
Section compare.

Variable UserAgent : UAParser.Library.
Variable ip : Ip.Library.

Definition userAgents_format : string :=
  "Comparing user agents\n    %s\n    %s\n    %20.20s = %s\n    %20.20s = %s\n    %20.20s = %s".

Definition userAgents (request_user_agent session_user_agent : string)
  : Exec bool :=
  request_ua <- call (getResult UserAgent request_user_agent) ;;
  session_ua <- call (getResult UserAgent session_user_agent) ;;
  log_debug userAgents_format
    [ Some request_user_agent; Some session_user_agent;
      cpu_architecture (cpu request_ua); cpu_architecture (cpu session_ua);
      os_name (os request_ua); os_name (os session_ua);
      browser_name (browser request_ua); browser_name (browser session_ua) ] ;;;
  if (strict_neq (cpu_architecture (cpu request_ua))
                 (cpu_architecture (cpu session_ua))
      || strict_neq (os_name (os request_ua)) (os_name (os session_ua))
      || strict_neq (browser_name (browser request_ua))
                    (browser_name (browser session_ua)))%bool
  then ret false
  else ret true.

Definition ipAddresses_format : string :=
  "Comparing user IPs\n    %20.20s = %s".

Definition ipAddresses (request_ip_address session_ip_address : string)
  : Exec bool :=
  log_debug ipAddresses_format
    [ Some request_ip_address; Some session_ip_address ] ;;;
  (call (Ip.isPrivate ip session_ip_address)
   ||| call (Ip.isEqual ip request_ip_address session_ip_address)).

End compare.
End legacy.

(* ================================================================== *)
(** ** Addresses, as the specification describes them *)
(* ================================================================== *)

Module Address.

Local Open Scope Z_scope.

(** Modelled from the spec: the address handling of the package [ip], which
    is no part of the repository.  The specification speaks of textual IPv4
    and IPv6 addresses, of a normal form under which the compressed forms of
    an IPv6 address and the leading zeros of an IPv4 octet disappear, and of
    the private or reserved ranges: the RFC 1918 blocks, loopback, link-local
    and their IPv6 counterparts.  An address in normal form is its family
    and its numeric value. *)
Inductive Address : Type :=
| IPv4 (n : Z)
| IPv6 (n : Z).

(** Modelled from the spec (address syntax): the code of a character. *)
Definition code (c : ascii) : Z := Z.of_nat (nat_of_ascii c).

(** Modelled from the spec (address syntax): the value of a decimal digit. *)
Definition digit (c : ascii) : option Z :=
  if (48 <=? code c) && (code c <=? 57) then Some (code c - 48) else None.

(** Modelled from the spec (address syntax): the value of a hexadecimal
    digit, in either case. *)
Definition hexdigit (c : ascii) : option Z :=
  if (48 <=? code c) && (code c <=? 57) then Some (code c - 48)
  else if (97 <=? code c) && (code c <=? 102) then Some (code c - 87)
  else if (65 <=? code c) && (code c <=? 70) then Some (code c - 55)
  else None.

(** Modelled from the spec (address syntax): the number a string of digits
    denotes in base [base], from [acc] on. *)
Fixpoint number (base : Z) (dig : ascii -> option Z) (s : string) (acc : Z)
  : option Z :=
  match s with
  | EmptyString => Some acc
  | String c s' =>
      match dig c with
      | Some d => number base dig s' (acc * base + d)
      | None => None
      end
  end.

(** Modelled from the spec (address syntax): the pieces of [s] between the
    occurrences of [sep]. *)
Fixpoint split (sep : ascii) (s : string) : list string :=
  match s with
  | EmptyString => [EmptyString]
  | String c s' =>
      if Ascii.eqb c sep then EmptyString :: split sep s'
      else match split sep s' with
           | w :: ws => String c w :: ws
           | [] => [String c EmptyString]
           end
  end.

(** Modelled from the spec (address syntax): all the values of a list of
    optional values, when none is missing. *)
Fixpoint all_some {A} (l : list (option A)) : option (list A) :=
  match l with
  | [] => Some []
  | Some a :: l' =>
      match all_some l' with Some r => Some (a :: r) | None => None end
  | None :: _ => None
  end.

(** Modelled from the spec (address syntax): an octet, in decimal digits,
    leading zeros allowed, at most 255. *)
Definition octet (s : string) : option Z :=
  match s with
  | EmptyString => None
  | _ => match number 10 digit s 0 with
         | Some n => if n <=? 255 then Some n else None
         | None => None
         end
  end.

(** Modelled from the spec (address syntax): a group of an IPv6 address,
    one to four hexadecimal digits. *)
Definition group (s : string) : option Z :=
  match s with
  | EmptyString => None
  | _ => if (String.length s <=? 4)%nat then number 16 hexdigit s 0 else None
  end.

(** Modelled from the spec (normal form): the value of a sequence of groups
    of [width] bits each. *)
Definition weigh (width : Z) (l : list Z) : Z :=
  fold_left (fun acc g => Z.shiftl acc width + g) l 0.

(** Modelled from the spec (address syntax): an IPv4 address, four octets
    between dots. *)
Definition parse4 (s : string) : option Z :=
  match map octet (split "." s) with
  | [Some a; Some b; Some c; Some d] => Some (weigh 8 [a; b; c; d])
  | _ => None
  end.

(** Modelled from the spec (address syntax): [s] cut at its first [::]. *)
Fixpoint cut (s : string) : option (string * string) :=
  match s with
  | EmptyString => None
  | String c s' =>
      match s' with
      | String c' s'' =>
          if Ascii.eqb c ":" && Ascii.eqb c' ":" then Some (EmptyString, s'')
          else match cut s' with
               | Some (l, r) => Some (String c l, r)
               | None => None
               end
      | EmptyString => None
      end
  end.

(** Modelled from the spec (address syntax): the groups on one side of [::],
    of which there may be none. *)
Definition groups (s : string) : option (list Z) :=
  match s with
  | EmptyString => Some []
  | _ => all_some (map group (split ":" s))
  end.

(** Modelled from the spec (address syntax): an IPv6 address, eight groups
    between colons, or fewer around one [::] that stands for the groups of
    zeros left out. *)
Definition parse6 (s : string) : option Z :=
  match cut s with
  | Some (l, r) =>
      match groups l, groups r with
      | Some gl, Some gr =>
          if (List.length gl + List.length gr <=? 7)%nat
          then Some (weigh 16
                 (gl ++ repeat 0 (8 - (List.length gl + List.length gr))%nat
                     ++ gr)%list)
          else None
      | _, _ => None
      end
  | None =>
      match all_some (map group (split ":" s)) with
      | Some gs => if (List.length gs =? 8)%nat then Some (weigh 16 gs) else None
      | None => None
      end
  end.

(** Modelled from the spec: the normal form of a textual address; [None]
    when [s] is no address. *)
Definition normalize (s : string) : option Address :=
  match parse4 s with
  | Some n => Some (IPv4 n)
  | None => match parse6 s with
            | Some n => Some (IPv6 n)
            | None => None
            end
  end.

(** Modelled from the spec (address syntax): the decimal digit [d] as a
    character. *)
Definition digit_char (d : Z) : ascii := ascii_of_nat (Z.to_nat (48 + d)).

(** Modelled from the spec (address syntax): an octet in decimal, without
    leading zeros. *)
Definition decimal (n : Z) : string :=
  if n <? 10 then String (digit_char n) EmptyString
  else if n <? 100 then
    String (digit_char (n / 10)) (String (digit_char (n mod 10)) EmptyString)
  else
    String (digit_char (n / 100))
      (String (digit_char (n / 10 mod 10))
         (String (digit_char (n mod 10)) EmptyString)).

(** Modelled from the spec (address syntax): the address [a.b.c.d] as it is
    written. *)
Definition dotted (a b c d : Z) : string :=
  decimal a ++ "." ++ decimal b ++ "." ++ decimal c ++ "." ++ decimal d.

(** Modelled from the spec (address syntax): [s] holds no [sep]. *)
Fixpoint lacks (sep : ascii) (s : string) : bool :=
  match s with
  | EmptyString => true
  | String c s' => negb (Ascii.eqb c sep) && lacks sep s'
  end.

(** Modelled from the spec (ranges): [n], an address of [bits] bits, lies in
    the block [base/len]. *)
Definition in_block (bits : Z) (n base len : Z) : bool :=
  Z.shiftr n (bits - len) =? Z.shiftr base (bits - len).

(** Modelled from the spec (normal form): the value of [a.b.c.d]. *)
Definition quad (a b c d : Z) : Z := weigh 8 [a; b; c; d].

(** Modelled from the spec: the classification of an address, private or
    reserved when it lies in an RFC 1918 block, is a loopback or link-local
    address, or is the IPv6 counterpart of one (the loopback address, the
    link-local block [fe80::/10], the unique local block [fc00::/7]). *)
Definition private (a : Address) : bool :=
  match a with
  | IPv4 n =>
      in_block 32 n (quad 10 0 0 0) 8
      || in_block 32 n (quad 172 16 0 0) 12
      || in_block 32 n (quad 192 168 0 0) 16
      || in_block 32 n (quad 127 0 0 0) 8
      || in_block 32 n (quad 169 254 0 0) 16
  | IPv6 n =>
      (n =? 1)
      || in_block 128 n (weigh 16 [0xfe80; 0; 0; 0; 0; 0; 0; 0]) 10
      || in_block 128 n (weigh 16 [0xfc00; 0; 0; 0; 0; 0; 0; 0]) 7
  end.

(** Modelled from the spec: "same address" in the canonical sense, the
    equality of normal forms. *)
Definition same (a b : Address) : bool :=
  match a, b with
  | IPv4 n, IPv4 m => n =? m
  | IPv6 n, IPv6 m => n =? m
  | _, _ => false
  end.

Section Library.

(** What the package answers when it is handed a string that is no address.
    The specification wants that answer to be [false]; [compare] leaves the
    matter to the package. *)
Variable malformed : string -> completion bool.

(** Modelled from the spec: [ip.isPrivate], the classification of the
    address that [addr] denotes. *)
Definition isPrivate (addr : string) : completion bool :=
  match normalize addr with
  | Some a => Return (private a)
  | None => malformed addr
  end.

(** Modelled from the spec: [ip.isEqual], the equality of the addresses
    that [a] and [b] denote; [a] is read first. *)
Definition isEqual (a b : string) : completion bool :=
  match normalize a, normalize b with
  | Some x, Some y => Return (same x y)
  | None, _ => malformed a
  | Some _, None => malformed b
  end.

(** Modelled from the spec: the package [ip], as far as [compare] uses it. *)
Definition library : Ip.Library :=
  {| Ip.isPrivate := isPrivate; Ip.isEqual := isEqual |}.

End Library.

(** Modelled from the spec: the package [ip] with the fail-closed answer the
    specification asks for, a string that is no address being neither
    private nor equal to anything. *)
Definition fail_closed : Ip.Library := library (fun _ => Return false).

(** The same addresses under a package that rejects what it cannot read,
    as the conversion of [ip] does with its [Invalid ip address]: handed a
    string that is no address, it raises.  Nothing in the specification
    describes this answer; it is here to show what [compare] does with it. *)
Definition raising : Ip.Library :=
  library (fun s => Throw (mkError ("Invalid ip address: " ++ s))).

End Address.

(* ================================================================== *)
(** ** User agents of the test-suite *)
(* ================================================================== *)

Module Fixture.

(** Modelled from the spec: the parser of [ua-parser-js], which is no part of
    the repository.  The specification describes a best-effort parse that
    never fails and leaves what it does not recognise unknown.  This stand-in
    knows the user agents of the test-suite, by the attributes the parser
    finds in them, and nothing else. *)
Definition unknown (s : string) : IResult :=
  {| ua := s;
     browser := {| browser_name := None; browser_version := None;
                   browser_major := None |};
     device := {| device_model := None; device_type := None;
                  device_vendor := None |};
     engine := {| engine_name := None; engine_version := None |};
     os := {| os_name := None; os_version := None |};
     cpu := {| cpu_architecture := None |} |}.

(** Modelled from the spec: a parse with the given browser name, version and
    major, engine name and version, OS name and version and CPU
    architecture, no device being recognised. *)
Definition parsed (s : string) (b v m e ev o ov a : optstring) : IResult :=
  {| ua := s;
     browser := {| browser_name := b; browser_version := v;
                   browser_major := m |};
     device := {| device_model := None; device_type := None;
                  device_vendor := None |};
     engine := {| engine_name := e; engine_version := ev |};
     os := {| os_name := o; os_version := ov |};
     cpu := {| cpu_architecture := a |} |}.

(** The user agents of the test-suite, and Chrome 90 on the Linux machine
    of the first. *)
Definition chrome_linux_ua : string :=
  "Mozilla/5.0 (X11; Linux x86_64) AppleWebKit/537.36 (KHTML, like Gecko) Chrome/81.0.4044.129 Safari/537.36".
Definition chrome90_linux_ua : string :=
  "Mozilla/5.0 (X11; Linux x86_64) AppleWebKit/537.36 (KHTML, like Gecko) Chrome/90.0.4430.212 Safari/537.36".
Definition chrome_windows_ua : string :=
  "Mozilla/5.0 (Windows NT 10.0; Win64; x64) AppleWebKit/537.36 (KHTML, like Gecko) Chrome/81.0.4044.129 Safari/537.36".
Definition firefox_linux_ua : string :=
  "Mozilla/5.0 (X11; Linux x86_64; rv:75.0) Gecko/20100101 Firefox/75.0".
Definition chrome_mac_ua : string :=
  "Mozilla/5.0 (Macintosh; Intel Mac OS X 10_15_4) AppleWebKit/537.36 (KHTML, like Gecko) Chrome/81.0.4044.129 Safari/537.36".

(** Modelled from the spec: what the parser finds in the user agents of the
    test-suite. *)
Definition known : list IResult :=
  [ parsed chrome_linux_ua (Some "Chrome") (Some "81.0.4044.129") (Some "81")
      (Some "Blink") (Some "81.0.4044.129") (Some "Linux") (Some "x86_64")
      (Some "amd64");
    parsed chrome90_linux_ua (Some "Chrome") (Some "90.0.4430.212") (Some "90")
      (Some "Blink") (Some "90.0.4430.212") (Some "Linux") (Some "x86_64")
      (Some "amd64");
    parsed chrome_windows_ua (Some "Chrome") (Some "81.0.4044.129") (Some "81")
      (Some "Blink") (Some "81.0.4044.129") (Some "Windows") (Some "10")
      (Some "amd64");
    parsed firefox_linux_ua (Some "Firefox") (Some "75.0") (Some "75")
      (Some "Gecko") (Some "75.0") (Some "Linux") (Some "x86_64")
      (Some "amd64");
    parsed chrome_mac_ua (Some "Chrome") (Some "81.0.4044.129") (Some "81")
      (Some "Blink") (Some "81.0.4044.129") (Some "Mac OS") (Some "10.15.4")
      None ].

(** Modelled from the spec: the parse of [s], every attribute of a string
    that is not recognised being unknown. *)
Definition parse (s : string) : IResult :=
  match find (fun r => String.eqb (ua r) s) known with
  | Some r => r
  | None => unknown s
  end.

(** Modelled from the spec: the parser, which never fails. *)
Definition parser : UAParser.Library :=
  {| getResult := fun s => Return (parse s) |}.

End Fixture.

(* ================================================================== *)
(** ** The attributes the policy reads *)
(* ================================================================== *)

(** The three attributes of a parsed user agent that [userAgents] reads. *)
Definition policy (r : IResult) : optstring * optstring * optstring :=
  (cpu_architecture (cpu r), os_name (os r), browser_name (browser r)).

(** The verdict of [userAgents] on two parsed user agents. *)
Definition verdict (request_ua session_ua : IResult) : bool :=
  if (strict_neq (cpu_architecture (cpu request_ua))
                 (cpu_architecture (cpu session_ua))
      || strict_neq (os_name (os request_ua)) (os_name (os session_ua))
      || strict_neq (browser_name (browser request_ua))
                    (browser_name (browser session_ua)))%bool
  then false
  else true.

(* ================================================================== *)
(** ** The rest of [src/index.ts]: responses, containers, the client *)
(* ================================================================== *)

Module Sdk.

(** The verbs of the interface [HttpClient]. *)
Inductive Method : Type := POST | PUT | GET.

Section Sdk.

(** What a value may be besides [undefined] and a string: a number, a
    boolean, [null], an object.  Its truth value and its rendering in a
    template literal are the language's. *)
Variable other : Type.
Variable other_truthy : other -> bool.
Variable other_toString : other -> string.

Inductive Value : Type :=
| VUndefined
| VString (s : string)
| VOther (u : other).

(** The truth value of [v] in a condition. *)
Definition ToBoolean (v : Value) : bool :=
  match v with
  | VUndefined => false
  | VString s => negb (String.eqb s "")
  | VOther u => other_truthy u
  end.

(** The text of [v] in a template literal. *)
Definition ToString (v : Value) : string :=
  match v with
  | VUndefined => "undefined"
  | VString s => s
  | VOther u => other_toString u
  end.

(** An object, by its own enumerable properties; no key occurs twice. *)
Definition Object : Type := list (string * Value).

Definition keys (o : Object) : list string := map fst o.

(** [o[k]], for an object that inherits no [k]. *)
Fixpoint read (o : Object) (k : string) : Value :=
  match o with
  | [] => VUndefined
  | (k', v) :: o' => if String.eqb k' k then v else read o' k
  end.

(** The own properties of [o] once its property [k] is [v]. *)
Fixpoint write (o : Object) (k : string) (v : Value) : Object :=
  match o with
  | [] => [(k, v)]
  | (k', v') :: o' =>
      if String.eqb k' k then (k, v) :: o' else (k', v') :: write o' k v
  end.

(** [this[k] = v] on an instance of a class: the key [__proto__] reaches the
    setter that every object inherits and makes no property. *)
Definition assign (this : Object) (k : string) (v : Value) : Object :=
  if String.eqb k "__proto__" then this else write this k v.

(** [interface HttpClient]: each call resolves to a response or rejects. *)
Record HttpClient : Type :=
  { post : string -> option Object -> completion Object;
    put : string -> option Object -> completion Object;
    get : string -> option Object -> completion Object }.

(** [http_client.create(base, { headers })], of the package [@whi/http]. *)
Variable http_client_create : string -> list (string * string) -> HttpClient.

(** Whether the compiler turns the declared fields of a class into
    properties of each instance; the setting is the build's, not the
    source's. *)
Variable useDefineForClassFields : bool.

(** What a call does on the way: the requests it sends and what it hands to
    [log.debug]. *)
Inductive Event : Type :=
| Request (m : Method) (endpoint : string) (data : option Object)
| Debug (fmt : string) (arg : Object).

(** An asynchronous computation: its events, and how it settles. *)
Definition Task (A : Type) : Type := (list Event * completion A)%type.

Definition resolve {A} (a : A) : Task A := ([], Return a).

Definition reject {A} (e : Error) : Task A := ([], Throw e).

Definition next {A B} (m : Task A) (k : A -> Task B) : Task B :=
  match m with
  | (l, Return a) => let (l', r) := k a in ((l ++ l')%list, r)
  | (l, Throw e) => (l, Throw e)
  end.

(** [await api.post(endpoint, data)] and its like. *)
Definition await (m : Method) (api : HttpClient) (endpoint : string)
  (data : option Object) : Task Object :=
  ([Request m endpoint data],
   match m with
   | POST => post api endpoint data
   | PUT => put api endpoint data
   | GET => get api endpoint data
   end).

Definition debug (fmt : string) (arg : Object) : Task unit :=
  ([Debug fmt arg], Return tt).

(** How a task settles, and what it did on the way. *)
Definition settles {A} (m : Task A) : completion A := snd m.
Definition events {A} (m : Task A) : list Event := fst m.

Local Notation "x <~ m ;; k" := (next m (fun x => k))
  (at level 61, m at next level, right associativity).
Local Notation "m ;;~ k" := (next m (fun _ => k))
  (at level 61, right associativity).

(** [function error_check(response)]. *)
Definition error_check (response : Object) : Task unit :=
  if (ToBoolean (read response "status")
      || ToBoolean (read response "error"))%bool
  then reject (mkError (ToString (read response "status") ++ " "
                        ++ ToString (read response "error") ++ ": "
                        ++ ToString (read response "message")))
  else resolve tt.

(** The condition of [error_check], and the error it raises. *)
Definition flagged (response : Object) : bool :=
  (ToBoolean (read response "status")
   || ToBoolean (read response "error"))%bool.

Definition failure (response : Object) : Error :=
  mkError (ToString (read response "status") ++ " "
           ++ ToString (read response "error") ++ ": "
           ++ ToString (read response "message")).

(** How a call settles that checks the response [r] of its request with
    [error_check] and wraps it with [C]. *)
Definition checked (r : completion Object) (C : Object -> Object)
  : completion Object :=
  match r with
  | Return response =>
      if flagged response then Throw (failure response)
      else Return (C response)
  | Throw e => Throw e
  end.

(** Two calls settle alike: they reject with the same error, or resolve to
    objects that read the same at every key. *)
Definition alike (c c' : completion Object) : Prop :=
  match c, c' with
  | Return u, Return u' => forall k, read u k = read u' k
  | Throw e, Throw e' => e = e'
  | _, _ => False
  end.

(** The properties that the declared fields of a class leave on a new
    instance. *)
Definition declared (fields : list string) : Object :=
  if useDefineForClassFields then map (fun k => (k, VUndefined)) fields
  else [].

(** [new User(data)]. *)
Definition User (data : Object) : Object :=
  fold_left (fun this kv => assign this (fst kv) (snd kv)) data
    (declared ["id"]).

(** [new Session(data)]. *)
Definition Session (data : Object) : Object :=
  fold_left (fun this kv => assign this (fst kv) (snd kv)) data
    (declared ["id"; "credential"]).

(** The object [config]; its one property can be assigned to. *)
Record Config : Type := { API_BASE_URL : string }.

(** [class Collection]. *)
Record Collection : Type :=
  { collection_id : string; access_key : string; bindings : Value;
    api : HttpClient }.

(** [static async create()], under the configuration of the moment. *)
Definition create (config : Config) : Task Object :=
  let anonymous :=
    http_client_create (API_BASE_URL config)
      [("Content-Type", "application/json")] in
  await POST anonymous "/collections" None.

(** [new Collection(collection_id, access_key, bindings)], under the
    configuration of the moment. *)
Definition constructor (config : Config) (collection_id access_key : string)
  (bindings : Value) : Collection :=
  {| collection_id := collection_id;
     access_key := access_key;
     bindings := bindings;
     api := http_client_create (API_BASE_URL config)
              [("Content-Type", "application/json");
               ("Authorization", "Authentic " ++ access_key)] |}.

Definition user (this : Collection) (password : string) : Task Object :=
  user <~ await POST (api this)
            ("/collections/" ++ collection_id this ++ "/credentials")
            (Some [("password", VString password)]) ;;
  debug "POST credentials response: %s" user ;;~
  error_check user ;;~
  resolve (User user).

Definition update_password (this : Collection)
  (credential_id current_password password : string) : Task Object :=
  credential <~ await PUT (api this) ("/credentials/" ++ credential_id)
                  (Some [("current_password", VString current_password);
                         ("password", VString password)]) ;;
  debug "PUT credentials response: %s" credential ;;~
  error_check credential ;;~
  resolve (User credential).

Definition session (this : Collection)
  (credential_id password ip_address user_agent : string) : Task Object :=
  session <~ await POST (api this)
               ("/credentials/" ++ credential_id ++ "/sessions")
               (Some [("password", VString password);
                      ("ip_address", VString ip_address);
                      ("user_agent", VString user_agent)]) ;;
  debug "POST sessions response: %s" session ;;~
  error_check session ;;~
  resolve (Session session).

Definition validate (this : Collection) (id ip_address user_agent : string)
  : Task Object :=
  session <~ await GET (api this) ("/sessions/" ++ id)
               (Some [("ip_address", VString ip_address);
                      ("user_agent", VString user_agent)]) ;;
  debug "GET session response: %s" session ;;~
  error_check session ;;~
  resolve (Session session).

(** *** The legacy module *)

Definition legacy_error_check (response : Object) : Task unit :=
  if (ToBoolean (read response "status")
      || ToBoolean (read response "error"))%bool
  then reject (mkError (ToString (read response "status") ++ " "
                        ++ ToString (read response "error") ++ ": "
                        ++ ToString (read response "message")))
  else resolve tt.

(** [new User(data)]: the class declares no field, and walks the entries
    with [map], whose result it drops. *)
Definition legacy_User (data : Object) : Object :=
  fold_left (fun this kv => assign this (fst kv) (snd kv)) data [].

Definition legacy_Session (data : Object) : Object :=
  fold_left (fun this kv => assign this (fst kv) (snd kv)) data [].

(** The exported object [public_vars], whose [API_BASE_URL] the legacy
    classes read where the new ones read [config]. *)
Definition legacy_create (public_vars : Config) : Task Object :=
  let anonymous :=
    http_client_create (API_BASE_URL public_vars)
      [("Content-Type", "application/json")] in
  await POST anonymous "/collections" None.

Definition legacy_constructor (public_vars : Config)
  (collection_id access_key : string) (bindings : Value) : Collection :=
  {| collection_id := collection_id;
     access_key := access_key;
     bindings := bindings;
     api := http_client_create (API_BASE_URL public_vars)
              [("Content-Type", "application/json");
               ("Authorization", "Authentic " ++ access_key)] |}.

Definition legacy_user (this : Collection) (password : string)
  : Task Object :=
  user <~ await POST (api this)
            ("/collections/" ++ collection_id this ++ "/credentials")
            (Some [("password", VString password)]) ;;
  debug "POST credentials response: %s" user ;;~
  legacy_error_check user ;;~
  resolve (legacy_User user).

Definition legacy_update_password (this : Collection)
  (credential_id current_password password : string) : Task Object :=
  credential <~ await PUT (api this) ("/credentials/" ++ credential_id)
                  (Some [("current_password", VString current_password);
                         ("password", VString password)]) ;;
  debug "PUT credentials response: %s" credential ;;~
  legacy_error_check credential ;;~
  resolve (legacy_User credential).

Definition legacy_session (this : Collection)
  (credential_id password ip_address user_agent : string) : Task Object :=
  session <~ await POST (api this)
               ("/credentials/" ++ credential_id ++ "/sessions")
               (Some [("password", VString password);
                      ("ip_address", VString ip_address);
                      ("user_agent", VString user_agent)]) ;;
  debug "POST sessions response: %s" session ;;~
  legacy_error_check session ;;~
  resolve (legacy_Session session).

Definition legacy_validate (this : Collection)
  (id ip_address user_agent : string) : Task Object :=
  session <~ await GET (api this) ("/sessions/" ++ id)
               (Some [("ip_address", VString ip_address);
                      ("user_agent", VString user_agent)]) ;;
  debug "GET session response: %s" session ;;~
  legacy_error_check session ;;~
  resolve (legacy_Session session).

End Sdk.

Arguments VUndefined {other}.
Arguments VString {other} s.
Arguments VOther {other} u.
Arguments ToBoolean {other} other_truthy v.
Arguments ToString {other} other_toString v.
Arguments keys {other} o.
Arguments read {other} o k.
Arguments write {other} o k v.
Arguments assign {other} this k v.
Arguments post {other} h endpoint data.
Arguments put {other} h endpoint data.
Arguments get {other} h endpoint data.
Arguments Request {other} m endpoint data.
Arguments Debug {other} fmt arg.
Arguments resolve {other A} a.
Arguments reject {other A} e.
Arguments next {other A B} m k.
Arguments await {other} m api endpoint data.
Arguments debug {other} fmt arg.
Arguments settles {other A} m.
Arguments events {other A} m.
Arguments error_check {other} other_truthy other_toString response.
Arguments flagged {other} other_truthy response.
Arguments failure {other} other_toString response.
Arguments checked {other} other_truthy other_toString r C.
Arguments alike {other} c c'.
Arguments User {other} useDefineForClassFields data.
Arguments Session {other} useDefineForClassFields data.
Arguments collection_id {other} c.
Arguments access_key {other} c.
Arguments bindings {other} c.
Arguments api {other} c.
Arguments create {other} http_client_create config.
Arguments constructor {other} http_client_create config
  collection_id access_key bindings.
Arguments user {other} other_truthy other_toString useDefineForClassFields
  this password.
Arguments update_password {other} other_truthy other_toString
  useDefineForClassFields this credential_id current_password password.
Arguments session {other} other_truthy other_toString useDefineForClassFields
  this credential_id password ip_address user_agent.
Arguments validate {other} other_truthy other_toString useDefineForClassFields
  this id ip_address user_agent.
Arguments legacy_error_check {other} other_truthy other_toString response.
Arguments legacy_User {other} data.
Arguments legacy_Session {other} data.
Arguments legacy_create {other} http_client_create public_vars.
Arguments legacy_constructor {other} http_client_create public_vars
  collection_id access_key bindings.
Arguments legacy_user {other} other_truthy other_toString this password.
Arguments legacy_update_password {other} other_truthy other_toString
  this credential_id current_password password.
Arguments legacy_session {other} other_truthy other_toString
  this credential_id password ip_address user_agent.
Arguments legacy_validate {other} other_truthy other_toString
  this id ip_address user_agent.

(** The configuration a module starts with. *)
Definition config : Config :=
  {| API_BASE_URL := "https://vault.magicauth.ca" |}.

(** *** Responses to try the client on *)

(** The values of a response body that are neither strings nor objects;
    the numbers are those of a status code, integers. *)
Inductive Json : Type :=
| JNull
| JBool (b : bool)
| JNumber (z : Z).

Definition json_truthy (j : Json) : bool :=
  match j with
  | JNull => false
  | JBool b => b
  | JNumber z => negb (z =? 0)%Z
  end.

Definition json_toString (j : Json) : string :=
  match j with
  | JNull => "null"
  | JBool true => "true"
  | JBool false => "false"
  | JNumber z => NilZero.string_of_int (Z.to_int z)
  end.

(** A service that settles every request the same way. *)
Definition canned (r : completion (Object Json))
  : string -> list (string * string) -> HttpClient Json :=
  fun _ _ =>
    {| post := fun _ _ => r; put := fun _ _ => r; get := fun _ _ => r |}.

(** A collection whose client talks to such a service. *)
Definition client (r : completion (Object Json)) : Collection Json :=
  constructor (canned r) config "Coll_7" "s3cr3t" VUndefined.

Definition created : Object Json := [("id", VString "Auth_U1-kQ3x")].

Definition unauthorized : Object Json :=
  [("status", VOther (JNumber 401)); ("error", VString "Unauthorized");
   ("message", VString "Password mismatch")].

End Sdk.

(* ================================================================== *)
(** ** Evaluation lemmas *)
(* ================================================================== *)

Lemma strict_eq_spec (x y : optstring) : strict_eq x y = true <-> x = y.
Proof.
  destruct x as [a|], y as [b|]; simpl; split; intro H;
    try discriminate; try reflexivity.
  - apply String.eqb_eq in H. now subst.
  - injection H as ->. apply String.eqb_refl.
Qed.

Lemma strict_eq_sym (x y : optstring) : strict_eq x y = strict_eq y x.
Proof.
  destruct x as [a|], y as [b|]; simpl; try reflexivity.
  apply String.eqb_sym.
Qed.

Lemma strict_neq_false (x y : optstring) : strict_neq x y = false <-> x = y.
Proof.
  unfold strict_neq. rewrite negb_false_iff. apply strict_eq_spec.
Qed.

Lemma value_bind {A B} (m : Exec A) (k : A -> Exec B) :
  value (bind m k) =
  match value m with
  | Return a => value (k a)
  | Throw e => Throw e
  end.
Proof.
  destruct m as [l [a|e]]; simpl; [destruct (k a)|]; reflexivity.
Qed.

Lemma value_call {A} (c : completion A) : value (call c) = c.
Proof. reflexivity. Qed.

Lemma value_ret {A} (a : A) : value (ret a) = Return a.
Proof. reflexivity. Qed.

Lemma value_log_debug (fmt : string) (vs : list optstring) :
  value (log_debug fmt vs) = Return tt.
Proof. reflexivity. Qed.

Lemma value_or_else (a b : Exec bool) :
  value (a ||| b) =
  match value a with
  | Return true => Return true
  | Return false => value b
  | Throw e => Throw e
  end.
Proof.
  unfold or_else. rewrite value_bind.
  destruct (value a) as [[|]|e]; reflexivity.
Qed.

Lemma verdict_true (ra rb : IResult) : verdict ra rb = true <-> policy ra = policy rb.
Proof.
  unfold verdict, policy.
  destruct (strict_neq (cpu_architecture (cpu ra)) (cpu_architecture (cpu rb))) eqn:Ec;
  destruct (strict_neq (os_name (os ra)) (os_name (os rb))) eqn:Eo;
  destruct (strict_neq (browser_name (browser ra)) (browser_name (browser rb))) eqn:Eb;
  simpl; split; intro H; try discriminate; try reflexivity;
  try (apply strict_neq_false in Ec, Eo, Eb; congruence);
  injection H as Hc Ho Hb;
  apply strict_neq_false in Hc, Ho, Hb; congruence.
Qed.

Lemma verdict_sym (ra rb : IResult) : verdict ra rb = verdict rb ra.
Proof.
  unfold verdict, strict_neq.
  now rewrite (strict_eq_sym (cpu_architecture (cpu ra))),
              (strict_eq_sym (os_name (os ra))),
              (strict_eq_sym (browser_name (browser ra))).
Qed.

(** What [userAgents] evaluates to: the verdict on the two parses, unless
    one of them raises. *)
Lemma userAgents_value (U : UAParser.Library) (a b : string) :
  value (compare.userAgents U a b) =
  match getResult U a with
  | Return ra =>
      match getResult U b with
      | Return rb => Return (verdict ra rb)
      | Throw e => Throw e
      end
  | Throw e => Throw e
  end.
Proof.
  unfold compare.userAgents. rewrite value_bind, value_call.
  destruct (getResult U a) as [ra|e]; [|reflexivity].
  rewrite value_bind, value_call.
  destruct (getResult U b) as [rb|e]; [|reflexivity].
  rewrite value_bind, value_log_debug. unfold verdict.
  destruct (_ || _ || _)%bool; reflexivity.
Qed.

(** What [ipAddresses] evaluates to. *)
Lemma ipAddresses_value (I : Ip.Library) (r s : string) :
  value (compare.ipAddresses I r s) =
  match Ip.isPrivate I s with
  | Return true => Return true
  | Return false => Ip.isEqual I r s
  | Throw e => Throw e
  end.
Proof.
  unfold compare.ipAddresses.
  now rewrite value_bind, value_log_debug, value_or_else, !value_call.
Qed.

(* ================================================================== *)
(** ** The comparison tests of the repository *)
(* ================================================================== *)

Section comparison_tests.

Import Fixture.

Let userAgents := compare.userAgents Fixture.parser.
Let ipAddresses := compare.ipAddresses Address.fail_closed.

Example should_match_identical_user_agents :
  value (userAgents chrome_linux_ua chrome_linux_ua) = Return true.
Proof. reflexivity. Qed.

Example should_reject_different_browsers :
  value (userAgents chrome_linux_ua firefox_linux_ua) = Return false.
Proof. reflexivity. Qed.

Example should_reject_different_operating_systems :
  value (userAgents chrome_linux_ua chrome_windows_ua) = Return false.
Proof. reflexivity. Qed.

Example should_reject_different_CPU_architectures :
  value (userAgents chrome_linux_ua chrome_mac_ua) = Return false.
Proof. reflexivity. Qed.

Example should_match_identical_IP_addresses :
  value (ipAddresses "95.107.167.200" "95.107.167.200") = Return true.
Proof. vm_compute. reflexivity. Qed.

Example should_reject_different_IP_addresses :
  value (ipAddresses "95.107.167.200" "8.8.8.8") = Return false.
Proof. vm_compute. reflexivity. Qed.

Example should_allow_any_IP_when_session_IP_is_private :
  value (ipAddresses "95.107.167.200" "127.0.0.1") = Return true
  /\ value (ipAddresses "8.8.8.8" "192.168.1.1") = Return true
  /\ value (ipAddresses "1.2.3.4" "10.0.0.1") = Return true.
Proof. repeat split; vm_compute; reflexivity. Qed.

(** The comparison of strings is exact: letter case matters. *)
Example strict_eq_case_sensitive :
  strict_eq (Some "Chrome") (Some "chrome") = false
  /\ strict_eq None None = true
  /\ strict_eq None (Some "") = false.
Proof. repeat split; reflexivity. Qed.

End comparison_tests.

(* ================================================================== *)
(** ** The user-agent matcher *)
(* ================================================================== *)

(** C2.  For two user agents that the parser reads, [userAgents] returns a
    boolean, and that boolean is [true] exactly when the two parses have the
    same CPU architecture, the same OS name and the same browser name, under
    the exact equality of [string | undefined] values (two unknown values
    being equal).  Nothing else of a parse matters: parses with these three
    attributes give this verdict, whatever their other attributes, and
    whatever parser and strings they come from. *)
Theorem userAgents_three_attributes
  (U : UAParser.Library) (a b : string) (ra rb : IResult)
  (Ha : getResult U a = Return ra) (Hb : getResult U b = Return rb) :
  (value (compare.userAgents U a b) = Return true <->
     cpu_architecture (cpu ra) = cpu_architecture (cpu rb) /\
     os_name (os ra) = os_name (os rb) /\
     browser_name (browser ra) = browser_name (browser rb))
  /\ (value (compare.userAgents U a b) = Return false <->
     ~ (cpu_architecture (cpu ra) = cpu_architecture (cpu rb) /\
        os_name (os ra) = os_name (os rb) /\
        browser_name (browser ra) = browser_name (browser rb)))
  /\ (forall (U' : UAParser.Library) (a' b' : string) (ra' rb' : IResult),
        getResult U' a' = Return ra' -> getResult U' b' = Return rb' ->
        policy ra' = policy ra -> policy rb' = policy rb ->
        value (compare.userAgents U' a' b') = value (compare.userAgents U a b)).
Proof.
  assert (P : policy ra = policy rb <->
              cpu_architecture (cpu ra) = cpu_architecture (cpu rb) /\
              os_name (os ra) = os_name (os rb) /\
              browser_name (browser ra) = browser_name (browser rb)).
  { unfold policy. split.
    - intro H. injection H as -> -> ->. auto.
    - intros (-> & -> & ->). reflexivity. }
  rewrite userAgents_value, Ha, Hb.
  split; [split|split; [split|]].
  - intro H. injection H as H. apply P, verdict_true, H.
  - intro H. f_equal. apply verdict_true, P, H.
  - intros H K. apply P, verdict_true in K. injection H as H. congruence.
  (* the other attributes *)
  - intro H. f_equal. apply not_true_is_false. intro K.
    apply H, P, verdict_true, K.
  - intros U' a' b' ra' rb' Ha' Hb' Pa Pb.
    rewrite userAgents_value, Ha', Hb'. f_equal.
    destruct (verdict ra rb) eqn:E.
    + apply verdict_true. apply verdict_true in E. congruence.
    + apply not_true_is_false. intro K. apply verdict_true in K.
      assert (verdict ra rb = true) by (apply verdict_true; congruence).
      congruence.
Qed.

(** The user agents of the test-suite: Chrome and Firefox on the same Linux
    differ in the browser name alone, and do not match. *)
Lemma userAgents_three_attributes_witness :
  value (compare.userAgents Fixture.parser
           Fixture.chrome_linux_ua Fixture.firefox_linux_ua) = Return false.
Proof.
  apply (userAgents_three_attributes Fixture.parser
           Fixture.chrome_linux_ua Fixture.firefox_linux_ua _ _
           eq_refl eq_refl).
  intros (_ & _ & H). discriminate H.
Defined.

(** C6.  Two user agents whose parses have the same CPU architecture, OS name
    and browser name match, whatever their version numbers: no version is
    compared. *)
Theorem userAgents_ignores_versions
  (U : UAParser.Library) (a b : string) (ra rb : IResult)
  (Ha : getResult U a = Return ra) (Hb : getResult U b = Return rb)
  (Hc : cpu_architecture (cpu ra) = cpu_architecture (cpu rb))
  (Ho : os_name (os ra) = os_name (os rb))
  (Hn : browser_name (browser ra) = browser_name (browser rb)) :
  value (compare.userAgents U a b) = Return true.
Proof.
  rewrite userAgents_value, Ha, Hb. f_equal.
  apply verdict_true. unfold policy. congruence.
Qed.

(** Chrome 81 and Chrome 90 on the same Linux machine: the versions of the
    browser differ, the user agents match. *)
Lemma userAgents_ignores_versions_witness :
  browser_version (browser (Fixture.parse Fixture.chrome_linux_ua))
    <> browser_version (browser (Fixture.parse Fixture.chrome90_linux_ua))
  /\ value (compare.userAgents Fixture.parser
              Fixture.chrome_linux_ua Fixture.chrome90_linux_ua) = Return true.
Proof.
  split.
  - discriminate.
  - apply (userAgents_ignores_versions Fixture.parser
             Fixture.chrome_linux_ua Fixture.chrome90_linux_ua _ _
             eq_refl eq_refl); reflexivity.
Defined.

(** C7.  [userAgents] is symmetric: it returns a boolean on [(a, b)] exactly
    when it returns that boolean on [(b, a)], and it raises on the one pair
    exactly when it raises on the other. *)
Theorem userAgents_symmetric (U : UAParser.Library) (a b : string) :
  (forall v : bool,
      value (compare.userAgents U a b) = Return v <->
      value (compare.userAgents U b a) = Return v)
  /\ ((exists e, value (compare.userAgents U a b) = Throw e) <->
      (exists e, value (compare.userAgents U b a) = Throw e)).
Proof.
  rewrite !userAgents_value.
  destruct (getResult U a) as [ra|ea], (getResult U b) as [rb|eb].
  - rewrite (verdict_sym ra rb). split; [intro v|]; reflexivity.
  - split; [intro v|]; reflexivity.
  - split; [intro v|]; reflexivity.
  - split.
    + intro v. split; discriminate.
    + split; intros _; eauto.
Qed.

(** C8.  Two user agents that the parser cannot read at all, the CPU
    architecture, the OS name and the browser name of each being unknown,
    match. *)
Theorem userAgents_unparseable_match
  (U : UAParser.Library) (a b : string) (ra rb : IResult)
  (Ha : getResult U a = Return ra) (Hb : getResult U b = Return rb)
  (Ua : policy ra = (None, None, None)) (Ub : policy rb = (None, None, None)) :
  value (compare.userAgents U a b) = Return true.
Proof.
  rewrite userAgents_value, Ha, Hb. f_equal.
  apply verdict_true. congruence.
Qed.

(** The empty string and a string of noise. *)
Lemma userAgents_unparseable_match_witness :
  value (compare.userAgents Fixture.parser "" "?!#") = Return true.
Proof.
  apply (userAgents_unparseable_match Fixture.parser "" "?!#" _ _
           eq_refl eq_refl); reflexivity.
Defined.

(** C10.  The comparison functions of [src/index.ts] and those of the legacy
    module are the same functions: over the same two packages they hand the
    same trace to the logger and end the same way on every pair of strings,
    and so return the same boolean. *)
Theorem legacy_compare_agrees
  (U : UAParser.Library) (I : Ip.Library) (a b : string) :
  (legacy.userAgents U a b = compare.userAgents U a b
   /\ legacy.ipAddresses I a b = compare.ipAddresses I a b)
  /\ (forall v : bool,
        (value (legacy.userAgents U a b) = Return v <->
         value (compare.userAgents U a b) = Return v)
        /\ (value (legacy.ipAddresses I a b) = Return v <->
            value (compare.ipAddresses I a b) = Return v)).
Proof.
  split; [split; reflexivity|].
  intro v. split; reflexivity.
Qed.

(* ================================================================== *)
(** ** Addresses *)
(* ================================================================== *)

Section AddressFacts.

Import Address.
Local Open Scope Z_scope.

Lemma digit_range (c : ascii) (d : Z) : digit c = Some d -> 0 <= d <= 9.
Proof.
  unfold digit.
  destruct ((48 <=? code c) && (code c <=? 57))%bool eqn:E; [|discriminate].
  intro H. injection H as <-.
  apply andb_true_iff in E as [E1 E2].
  apply Z.leb_le in E1, E2. lia.
Qed.

Lemma number_nonneg (s : string) :
  forall acc n, 0 <= acc -> number 10 digit s acc = Some n -> 0 <= n.
Proof.
  induction s as [|c s IH]; simpl; intros acc n Hacc H.
  - injection H as <-. exact Hacc.
  - destruct (digit c) as [d|] eqn:E; [|discriminate].
    apply digit_range in E. apply (IH (acc * 10 + d)); [lia|exact H].
Qed.

Lemma octet_range (s : string) (n : Z) : octet s = Some n -> 0 <= n <= 255.
Proof.
  unfold octet. destruct s as [|c s]; [discriminate|].
  destruct (number 10 digit (String c s) 0) as [m|] eqn:E; [|discriminate].
  destruct (m <=? 255) eqn:L; [|discriminate].
  intro H. injection H as <-. split.
  - apply (number_nonneg _ _ _ (Z.le_refl 0) E).
  - now apply Z.leb_le.
Qed.

Lemma quad_value (a b c d : Z) :
  quad a b c d = a * 16777216 + b * 65536 + c * 256 + d.
Proof.
  unfold quad, weigh. cbn [fold_left].
  rewrite !Z.shiftl_mul_pow2 by lia.
  change (2 ^ 8) with 256. ring.
Qed.

(** A dotted quad normalizes to the IPv4 address of its four octets. *)
Lemma normalize_quad (s : string) (a b c d : Z) :
  map octet (split "." s) = [Some a; Some b; Some c; Some d] ->
  normalize s = Some (IPv4 (quad a b c d))
  /\ 0 <= a <= 255 /\ 0 <= b <= 255 /\ 0 <= c <= 255 /\ 0 <= d <= 255.
Proof.
  intro H. split.
  - unfold normalize, parse4. rewrite H. reflexivity.
  - destruct (split "." s) as [|s1 [|s2 [|s3 [|s4 [|s5 l]]]]];
      try discriminate H.
    cbn [map] in H. injection H as H1 H2 H3 H4.
    apply octet_range in H1, H2, H3, H4. auto.
Qed.

Lemma in_block_quad (a b c d base len : Z) :
  0 <= len <= 32 ->
  in_block 32 (quad a b c d) base len =
  ((a * 16777216 + b * 65536 + c * 256 + d) / 2 ^ (32 - len)
   =? base / 2 ^ (32 - len)).
Proof.
  intro H. unfold in_block.
  now rewrite quad_value, !Z.shiftr_div_pow2 by lia.
Qed.

(** The four blocks of the specification's test, octet by octet. *)
Lemma private_quad (a b c d : Z) :
  0 <= a <= 255 -> 0 <= b <= 255 -> 0 <= c <= 255 -> 0 <= d <= 255 ->
  a = 10 \/ (a = 172 /\ 16 <= b <= 31) \/ (a = 192 /\ b = 168) \/ a = 127 ->
  private (IPv4 (quad a b c d)) = true.
Proof.
  intros Ha Hb Hc Hd H. unfold private.
  rewrite !in_block_quad by lia.
  rewrite !quad_value.
  change (2 ^ (32 - 8)) with 16777216.
  change (2 ^ (32 - 12)) with 1048576.
  change (2 ^ (32 - 16)) with 65536.
  repeat rewrite orb_true_iff. rewrite !Z.eqb_eq.
  destruct H as [H|[[H H']|[[H H']|H]]]; subst a.
  - left; left; left; left.
    Z.div_mod_to_equations. lia.
  - left; left; left; right.
    Z.div_mod_to_equations. lia.
  - left; left; right. subst b.
    Z.div_mod_to_equations. lia.
  - left; right.
    Z.div_mod_to_equations. lia.
Qed.

Lemma split_lacks (sep : ascii) (w : string) :
  lacks sep w = true -> split sep w = [w].
Proof.
  induction w as [|c w IH]; simpl; [reflexivity|].
  intro H. apply andb_true_iff in H as [Hc Hw].
  apply negb_true_iff in Hc. now rewrite Hc, (IH Hw).
Qed.

Lemma split_app (sep : ascii) (w r : string) :
  lacks sep w = true ->
  split sep (w ++ String sep r) = w :: split sep r.
Proof.
  induction w as [|c w IH]; simpl.
  - intros _. now rewrite Ascii.eqb_refl.
  - intro H. apply andb_true_iff in H as [Hc Hw].
    apply negb_true_iff in Hc. now rewrite Hc, (IH Hw).
Qed.

(** Every octet, written in decimal, reads back as itself and holds no dot:
    checked on the 256 of them. *)
Lemma decimal_octets :
  forallb (fun k : nat =>
             let n := Z.of_nat k in
             match octet (decimal n) with
             | Some m => (m =? n) && lacks "." (decimal n)
             | None => false
             end) (seq 0 256) = true.
Proof. vm_compute. reflexivity. Qed.

Lemma decimal_octet (n : Z) :
  0 <= n <= 255 ->
  octet (decimal n) = Some n /\ lacks "." (decimal n) = true.
Proof.
  intro H.
  pose proof (proj1 (forallb_forall _ _) decimal_octets (Z.to_nat n)) as K.
  cbv beta zeta in K. rewrite Z2Nat.id in K by lia.
  assert (In (Z.to_nat n) (seq 0 256)) as Hin by (apply in_seq; lia).
  specialize (K Hin).
  destruct (octet (decimal n)) as [m|]; [|discriminate K].
  apply andb_true_iff in K as [K1 K2]. apply Z.eqb_eq in K1. now subst.
Qed.

(** The address [a.b.c.d], as it is written, reads as its four octets. *)
Lemma octets_dotted (a b c d : Z) :
  0 <= a <= 255 -> 0 <= b <= 255 -> 0 <= c <= 255 -> 0 <= d <= 255 ->
  map octet (split "." (dotted a b c d)) = [Some a; Some b; Some c; Some d].
Proof.
  intros Ha Hb Hc Hd.
  destruct (decimal_octet a Ha) as [Oa La], (decimal_octet b Hb) as [Ob Lb],
           (decimal_octet c Hc) as [Oc Lc], (decimal_octet d Hd) as [Od Ld].
  unfold dotted.
  change (decimal a ++ "." ++ decimal b ++ "." ++ decimal c ++ "." ++ decimal d)%string
    with (decimal a ++ String "." (decimal b ++ String "."
            (decimal c ++ String "." (decimal d))))%string.
  rewrite !split_app, split_lacks by assumption.
  cbn [map]. now rewrite Oa, Ob, Oc, Od.
Qed.

Lemma same_spec (x y : Address) : same x y = true <-> x = y.
Proof.
  destruct x as [n|n], y as [m|m]; simpl; split; intro H;
    try discriminate; try (apply Z.eqb_eq in H; now subst);
    injection H as ->; apply Z.eqb_refl.
Qed.

End AddressFacts.

(* ================================================================== *)
(** ** The IP address matcher *)
(* ================================================================== *)

(** C1.  When the session address classifies as private, [ipAddresses]
    returns [true] whatever the request address is; when it does not, the
    result is exactly the package's equality of the two addresses, which is
    equality of their normal forms: equal public addresses match, distinct
    ones do not, a compressed IPv6 address equals its full form and an IPv4
    octet equals itself with leading zeros.  How the request address itself
    classifies plays no role. *)
Theorem ipAddresses_policy :
  (forall (I : Ip.Library) (request_ip session_ip : string),
      Ip.isPrivate I session_ip = Return true ->
      value (compare.ipAddresses I request_ip session_ip) = Return true)
  /\ (forall (I : Ip.Library) (request_ip session_ip : string),
      Ip.isPrivate I session_ip = Return false ->
      value (compare.ipAddresses I request_ip session_ip)
      = Ip.isEqual I request_ip session_ip)
  /\ (forall (I I' : Ip.Library) (request_ip session_ip : string),
      Ip.isPrivate I' session_ip = Ip.isPrivate I session_ip ->
      Ip.isEqual I' request_ip session_ip = Ip.isEqual I request_ip session_ip ->
      value (compare.ipAddresses I' request_ip session_ip)
      = value (compare.ipAddresses I request_ip session_ip))
  /\ (forall (malformed : string -> completion bool)
             (request_ip session_ip : string) (x y : Address.Address),
      Address.normalize request_ip = Some x ->
      Address.normalize session_ip = Some y ->
      Address.private y = false ->
      (value (compare.ipAddresses (Address.library malformed)
                request_ip session_ip) = Return true <-> x = y)
      /\ (value (compare.ipAddresses (Address.library malformed)
                   request_ip session_ip) = Return false <-> x <> y))
  /\ (forall malformed : string -> completion bool,
        let I := Address.library malformed in
        value (compare.ipAddresses I "95.107.167.200" "95.107.167.200")
        = Return true
        /\ value (compare.ipAddresses I "95.107.167.200" "8.8.8.8")
           = Return false
        /\ value (compare.ipAddresses I "2001:db8::1" "2001:0DB8:0:0:0:0:0:1")
           = Return true
        /\ value (compare.ipAddresses I "008.8.08.8" "8.8.8.8") = Return true).
Proof.
  split; [|split; [|split; [|split]]].
  - intros I r s H. now rewrite ipAddresses_value, H.
  - intros I r s H. now rewrite ipAddresses_value, H.
  - intros I I' r s Hp He. now rewrite !ipAddresses_value, Hp, He.
  - intros malformed r s x y Hx Hy Hp.
    rewrite ipAddresses_value. cbn [Address.library Ip.isPrivate Ip.isEqual].
    unfold Address.isPrivate, Address.isEqual. rewrite Hx, Hy, Hp.
    split; split; intro H.
    + injection H as H. now apply same_spec.
    + f_equal. now apply same_spec.
    + injection H as H. intro K. apply same_spec in K. congruence.
    + f_equal. apply not_true_is_false. intro K. now apply same_spec in K.
  - intro malformed. repeat split; vm_compute; reflexivity.
Qed.

(** A session address that reads as four octets of one of the four blocks
    matches every request string. *)
Lemma ipAddresses_private_quad
  (malformed : string -> completion bool) (x s : string) (a b c d : Z)
  (Hs : map Address.octet (Address.split "." s)
        = [Some a; Some b; Some c; Some d])
  (Hr : (a = 10 \/ (a = 172 /\ 16 <= b <= 31) \/ (a = 192 /\ b = 168)
         \/ a = 127)%Z) :
  value (compare.ipAddresses (Address.library malformed) x s) = Return true.
Proof.
  apply normalize_quad in Hs as (Hn & Ha & Hb & Hc & Hd).
  rewrite ipAddresses_value. cbn [Address.library Ip.isPrivate].
  unfold Address.isPrivate. rewrite Hn.
  now rewrite (private_quad a b c d Ha Hb Hc Hd Hr).
Qed.

(** C4.  A session address [a.b.c.d] of [10.0.0.0/8], [172.16.0.0/12],
    [192.168.0.0/16] or [127.0.0.0/8] matches every request address [x],
    and indeed every string [x], whatever the package makes of the strings
    it cannot read. *)
Theorem ipAddresses_private_session
  (malformed : string -> completion bool) (x : string) (a b c d : Z)
  (Ha : (0 <= a <= 255)%Z) (Hb : (0 <= b <= 255)%Z)
  (Hc : (0 <= c <= 255)%Z) (Hd : (0 <= d <= 255)%Z)
  (Hr : (a = 10 \/ (a = 172 /\ 16 <= b <= 31) \/ (a = 192 /\ b = 168)
         \/ a = 127)%Z) :
  value (compare.ipAddresses (Address.library malformed) x
           (Address.dotted a b c d)) = Return true.
Proof.
  apply (ipAddresses_private_quad malformed x _ a b c d); [|exact Hr].
  now apply octets_dotted.
Qed.

(** The example of the specification: [8.8.8.8] against [192.168.1.1]. *)
Lemma ipAddresses_private_session_witness :
  Address.dotted 192 168 1 1 = "192.168.1.1"
  /\ value (compare.ipAddresses Address.fail_closed "8.8.8.8"
              (Address.dotted 192 168 1 1)) = Return true.
Proof.
  split; [reflexivity|].
  apply (ipAddresses_private_session (fun _ => Return false)
           "8.8.8.8" 192 168 1 1); try lia.
Defined.

(** C5.  [ipAddresses] depends on the order of its arguments: a public
    request address matches a private session address, and the same two
    addresses the other way round do not match, for only the classification
    of the second argument opens the bypass. *)
Theorem ipAddresses_order_dependent :
  (forall malformed : string -> completion bool,
      let I := Address.library malformed in
      value (compare.ipAddresses I "8.8.8.8" "192.168.1.1") = Return true
      /\ value (compare.ipAddresses I "192.168.1.1" "8.8.8.8") = Return false)
  /\ (forall (I : Ip.Library) (p q : string),
        Ip.isPrivate I p = Return true ->
        Ip.isPrivate I q = Return false ->
        Ip.isEqual I p q = Return false ->
        value (compare.ipAddresses I q p) = Return true
        /\ value (compare.ipAddresses I p q) = Return false).
Proof.
  split.
  - intro malformed. split; vm_compute; reflexivity.
  - intros I p q Hp Hq He. rewrite !ipAddresses_value, Hp, Hq, He. auto.
Qed.

(** C9.  When the session address classifies as private, [ipAddresses]
    returns [true] for every request string whatsoever: the equality of the
    two addresses is not evaluated, so neither its value nor an error it
    would raise can reach the result. *)
Theorem ipAddresses_short_circuit
  (I : Ip.Library) (request_ip session_ip : string)
  (H : Ip.isPrivate I session_ip = Return true) :
  value (compare.ipAddresses I request_ip session_ip) = Return true
  /\ (forall isEqual' : string -> string -> completion bool,
        value (compare.ipAddresses
                 {| Ip.isPrivate := Ip.isPrivate I; Ip.isEqual := isEqual' |}
                 request_ip session_ip) = Return true).
Proof.
  split.
  - now rewrite ipAddresses_value, H.
  - intro isEqual'. rewrite ipAddresses_value.
    cbn [Ip.isPrivate]. now rewrite H.
Qed.

(** A request string that is no address, on which the equality of a
    rejecting package raises, against a private session address. *)
Lemma ipAddresses_short_circuit_witness :
  Ip.isEqual Address.raising "not-an-ip" "10.0.0.1"
  = Throw (mkError "Invalid ip address: not-an-ip")
  /\ value (compare.ipAddresses Address.raising "not-an-ip" "10.0.0.1")
     = Return true
  /\ value (compare.ipAddresses Address.raising "" "10.0.0.1") = Return true.
Proof.
  split; [reflexivity|split].
  - apply (ipAddresses_short_circuit Address.raising "not-an-ip" "10.0.0.1").
    reflexivity.
  - apply (ipAddresses_short_circuit Address.raising "" "10.0.0.1").
    reflexivity.
Defined.

(* ================================================================== *)
(** ** Errors *)
(* ================================================================== *)

(** C3, as the specification states it, fails: [compare] has no handler
    around the calls into the packages, so a request string that is no
    address, under a package that rejects it, makes [ipAddresses] raise
    instead of answering [false]. *)
Lemma ipAddresses_raises_on_malformed :
  Ip.isPrivate Address.raising "8.8.8.8" = Return false
  /\ value (compare.ipAddresses Address.raising "not-an-ip" "8.8.8.8")
     = Throw (mkError "Invalid ip address: not-an-ip").
Proof.
  split; vm_compute; reflexivity.
Qed.

(** Which boolean [userAgents] returns: that of the comparison of the two
    parses. *)
Lemma userAgents_returns (U : UAParser.Library) (a b : string) (v : bool) :
  value (compare.userAgents U a b) = Return v <->
  exists ra rb,
    getResult U a = Return ra /\ getResult U b = Return rb
    /\ (v = true <-> policy ra = policy rb).
Proof.
  rewrite userAgents_value.
  destruct (getResult U a) as [ra|ea], (getResult U b) as [rb|eb]; split;
    try discriminate;
    try (intros (ra' & rb' & Ha & Hb & _); discriminate).
  - intro H. injection H as <-. exists ra, rb.
    split; [reflexivity|split; [reflexivity|apply verdict_true]].
  - intros (ra' & rb' & Ha & Hb & H).
    injection Ha as <-. injection Hb as <-. f_equal.
    destruct v.
    + apply verdict_true, H. reflexivity.
    + apply not_true_is_false. intro K. apply verdict_true, H in K.
      discriminate K.
Qed.

(** Which boolean [ipAddresses] returns: [true] on a private session
    address, and otherwise what the equality returns. *)
Lemma ipAddresses_returns (I : Ip.Library) (a b : string) (v : bool) :
  value (compare.ipAddresses I a b) = Return v <->
  (Ip.isPrivate I b = Return true /\ v = true)
  \/ (Ip.isPrivate I b = Return false /\ Ip.isEqual I a b = Return v).
Proof.
  rewrite ipAddresses_value.
  destruct (Ip.isPrivate I b) as [[|]|ep]; split.
  - intro H. injection H as <-. left. split; reflexivity.
  - intros [[_ ->]|[H _]]; [reflexivity|discriminate H].
  - intro H. right. split; [reflexivity|exact H].
  - intros [[H _]|[_ H]]; [discriminate H|exact H].
  - discriminate.
  - intros [[H _]|[H _]]; discriminate H.
Qed.

(** A session string that is no address: the package's answer on it decides,
    and when that answer is [false], its answer on the string the equality
    reads first. *)
Lemma ipAddresses_malformed_session
  (malformed : string -> completion bool) (a b : string) :
  Address.normalize b = None ->
  value (compare.ipAddresses (Address.library malformed) a b)
  = match malformed b with
    | Return true => Return true
    | Return false =>
        match Address.normalize a with
        | None => malformed a
        | Some _ => malformed b
        end
    | Throw e => Throw e
    end.
Proof.
  intro Hb. rewrite ipAddresses_value.
  cbn [Address.library Ip.isPrivate Ip.isEqual].
  unfold Address.isPrivate, Address.isEqual. rewrite Hb.
  destruct (malformed b) as [[|]|e]; reflexivity.
Qed.

(** A request string that is no address, against a public session address:
    the answer is the package's answer on the request string. *)
Lemma ipAddresses_malformed_request
  (malformed : string -> completion bool) (a b : string) (y : Address.Address) :
  Address.normalize a = None ->
  Address.normalize b = Some y -> Address.private y = false ->
  value (compare.ipAddresses (Address.library malformed) a b) = malformed a.
Proof.
  intros Ha Hb Hp. rewrite ipAddresses_value.
  cbn [Address.library Ip.isPrivate Ip.isEqual].
  unfold Address.isPrivate, Address.isEqual. now rewrite Hb, Hp, Ha.
Qed.

(** The boolean that [ipAddresses] returns under the fail-closed package. *)
Lemma ipAddresses_fail_closed (a b : string) :
  value (compare.ipAddresses Address.fail_closed a b)
  = Return
      match Address.normalize b with
      | Some y =>
          (Address.private y
           || match Address.normalize a with
              | Some x => Address.same x y
              | None => false
              end)%bool
      | None => false
      end.
Proof.
  rewrite ipAddresses_value.
  cbn [Address.fail_closed Address.library Ip.isPrivate Ip.isEqual].
  unfold Address.isPrivate, Address.isEqual.
  destruct (Address.normalize b) as [y|];
    [destruct (Address.private y)|];
    destruct (Address.normalize a) as [x|]; reflexivity.
Qed.

(** C3, amended.  Neither function raises an error of its own and neither
    handles one.  [userAgents] returns a boolean exactly when both parses
    return, and raises the error of the first parse that raises.
    [ipAddresses] returns a boolean exactly when the classification of the
    session address returns [true], or returns [false] and the equality
    returns; it raises the error of the classification, or that of the
    equality once the classification has returned [false].  Under a package
    that answers [false] on what it cannot read, [ipAddresses] returns a
    boolean on every pair of strings.

    The boolean returned is the one the packages decide: for [userAgents],
    [true] exactly when the two parses agree on the three attributes; for
    [ipAddresses], [true] on a private session address and otherwise what
    the equality returns.  A string that is no address is answered as the
    package answers on it, whatever that is: a malformed request address
    against a public session address gives the package's answer on the
    request, a malformed session address gives [true] or an error when the
    package says so on it, and [false] only when the package answers
    [false].  Under the fail-closed package the answer is [false] as soon as
    the session string is no address, or the session address is public and
    the request string is no address. *)
Theorem compare_ends_as_the_packages_do
  (U : UAParser.Library) (I : Ip.Library) (a b : string) :
  ((exists v, value (compare.userAgents U a b) = Return v) <->
     (exists ra, getResult U a = Return ra)
     /\ (exists rb, getResult U b = Return rb))
  /\ (forall e, value (compare.userAgents U a b) = Throw e <->
        getResult U a = Throw e
        \/ ((exists ra, getResult U a = Return ra) /\ getResult U b = Throw e))
  /\ ((exists v, value (compare.ipAddresses I a b) = Return v) <->
        Ip.isPrivate I b = Return true
        \/ (Ip.isPrivate I b = Return false
            /\ exists v, Ip.isEqual I a b = Return v))
  /\ (forall e, value (compare.ipAddresses I a b) = Throw e <->
        Ip.isPrivate I b = Throw e
        \/ (Ip.isPrivate I b = Return false /\ Ip.isEqual I a b = Throw e))
  /\ (exists v, value (compare.ipAddresses Address.fail_closed a b) = Return v)
  /\ (forall v : bool,
        value (compare.userAgents U a b) = Return v <->
        exists ra rb,
          getResult U a = Return ra /\ getResult U b = Return rb
          /\ (v = true <->
              cpu_architecture (cpu ra) = cpu_architecture (cpu rb)
              /\ os_name (os ra) = os_name (os rb)
              /\ browser_name (browser ra) = browser_name (browser rb)))
  /\ (forall v : bool,
        value (compare.ipAddresses I a b) = Return v <->
        (Ip.isPrivate I b = Return true /\ v = true)
        \/ (Ip.isPrivate I b = Return false /\ Ip.isEqual I a b = Return v))
  /\ (forall malformed : string -> completion bool,
        (Address.normalize b = None ->
         value (compare.ipAddresses (Address.library malformed) a b)
         = match malformed b with
           | Return true => Return true
           | Return false =>
               match Address.normalize a with
               | None => malformed a
               | Some _ => malformed b
               end
           | Throw e => Throw e
           end)
        /\ (forall y, Address.normalize a = None ->
              Address.normalize b = Some y -> Address.private y = false ->
              value (compare.ipAddresses (Address.library malformed) a b)
              = malformed a))
  /\ value (compare.ipAddresses Address.fail_closed a b)
     = Return
         match Address.normalize b with
         | Some y =>
             (Address.private y
              || match Address.normalize a with
                 | Some x => Address.same x y
                 | None => false
                 end)%bool
         | None => false
         end
  /\ (Address.normalize b = None ->
      value (compare.ipAddresses Address.fail_closed a b) = Return false)
  /\ (forall y, Address.normalize a = None ->
        Address.normalize b = Some y -> Address.private y = false ->
        value (compare.ipAddresses Address.fail_closed a b) = Return false).
Proof.
  split; [|split; [|split; [|split; [|split]]]].
  - rewrite userAgents_value.
    destruct (getResult U a) as [ra|ea], (getResult U b) as [rb|eb];
      split; try (intros (v & H); discriminate H);
      try (intros ((ra' & Ha) & (rb' & Hb)); discriminate); eauto.
  - intro e. rewrite userAgents_value.
    destruct (getResult U a) as [ra|ea], (getResult U b) as [rb|eb];
      (split; [intro H; try discriminate H; injection H as ->; eauto
              |intros [H|((ra' & Ha) & Hb)]; congruence]).
  - rewrite ipAddresses_value.
    destruct (Ip.isPrivate I b) as [[|]|ep];
      (split; [intros (v & H); try discriminate H; eauto
              |intros [H|(H & v & K)]; try discriminate; eauto]).
  - intro e. rewrite ipAddresses_value.
    destruct (Ip.isPrivate I b) as [[|]|ep];
      (split; [intro H; try discriminate H; try (injection H as ->); eauto
              |intros [H|(H & K)]; congruence]).
  - rewrite ipAddresses_fail_closed. eauto.
  - split; [|split; [|split; [|split; [|split]]]].
    + intro v. rewrite userAgents_returns.
      split; intros (ra & rb & Ha & Hb & H); exists ra, rb;
        (split; [exact Ha|split; [exact Hb|]]);
        rewrite H; unfold policy; split.
      * intro K. injection K as -> -> ->. auto.
      * intros (-> & -> & ->). reflexivity.
      * intros (-> & -> & ->). reflexivity.
      * intro K. injection K as -> -> ->. auto.
    + intro v. apply ipAddresses_returns.
    + intro malformed. split.
      * apply ipAddresses_malformed_session.
      * intros y. apply ipAddresses_malformed_request.
    + apply ipAddresses_fail_closed.
    + intro Hb. now rewrite ipAddresses_fail_closed, Hb.
    + intros y Ha Hb Hp. now rewrite ipAddresses_fail_closed, Hb, Hp, Ha.
Qed.

(* ================================================================== *)
(** ** More on the two matchers *)
(* ================================================================== *)

(** X1.  A user agent that the parser reads matches itself. *)
Theorem userAgents_reflexive
  (U : UAParser.Library) (a : string) (ra : IResult)
  (Ha : getResult U a = Return ra) :
  value (compare.userAgents U a a) = Return true.
Proof.
  rewrite userAgents_value, Ha. f_equal. now apply verdict_true.
Qed.

(** The user agent of the test-suite against itself. *)
Lemma userAgents_reflexive_witness :
  value (compare.userAgents Fixture.parser
           Fixture.chrome_linux_ua Fixture.chrome_linux_ua) = Return true.
Proof.
  apply (userAgents_reflexive Fixture.parser Fixture.chrome_linux_ua _ eq_refl).
Defined.

(** X2.  Matching user agents chain: when [a] matches [b] and [b] matches
    [c], then [a] matches [c].  With reflexivity and symmetry, matching is
    an equivalence on the user agents that the parser reads. *)
Theorem userAgents_transitive
  (U : UAParser.Library) (a b c : string)
  (Hab : value (compare.userAgents U a b) = Return true)
  (Hbc : value (compare.userAgents U b c) = Return true) :
  value (compare.userAgents U a c) = Return true.
Proof.
  rewrite userAgents_value in *.
  destruct (getResult U a) as [ra|ea]; [|discriminate Hab].
  destruct (getResult U b) as [rb|eb]; [|discriminate Hab].
  destruct (getResult U c) as [rc|ec]; [|discriminate Hbc].
  injection Hab as Hab. injection Hbc as Hbc.
  apply verdict_true in Hab, Hbc.
  f_equal. apply verdict_true. congruence.
Qed.

(** Chrome 81, Chrome 90 and Chrome 81 again, on the same Linux machine. *)
Lemma userAgents_transitive_witness :
  value (compare.userAgents Fixture.parser
           Fixture.chrome_linux_ua Fixture.chrome_linux_ua) = Return true.
Proof.
  apply (userAgents_transitive Fixture.parser
           Fixture.chrome_linux_ua Fixture.chrome90_linux_ua
           Fixture.chrome_linux_ua); reflexivity.
Defined.

(** X3.  What the matchers hand to the logger.  [ipAddresses] logs its two
    arguments once, before it consults the package, and so whatever the
    package answers or raises.  [userAgents] logs once both parses have
    returned, and then the two strings and the three pairs of attributes it
    compares, nothing else of the parses; it logs nothing when a parse
    raises. *)
Theorem compare_traces :
  (forall (I : Ip.Library) (request_ip session_ip : string),
      trace (compare.ipAddresses I request_ip session_ip)
      = [mkLog compare.ipAddresses_format [Some request_ip; Some session_ip]])
  /\ (forall (U : UAParser.Library) (a b : string),
        trace (compare.userAgents U a b)
        = match getResult U a, getResult U b with
          | Return ra, Return rb =>
              [mkLog compare.userAgents_format
                 [Some a; Some b;
                  cpu_architecture (cpu ra); cpu_architecture (cpu rb);
                  os_name (os ra); os_name (os rb);
                  browser_name (browser ra); browser_name (browser rb)]]
          | _, _ => []
          end).
Proof.
  split.
  - intros I r s. unfold compare.ipAddresses, or_else, call, log_debug, bind.
    destruct (Ip.isPrivate I s) as [[|]|e]; reflexivity.
  - intros U a b. unfold compare.userAgents, call, log_debug, bind.
    destruct (getResult U a) as [ra|ea]; [|reflexivity].
    destruct (getResult U b) as [rb|eb]; [|reflexivity].
    cbn. destruct (_ || _ || _)%bool; reflexivity.
Qed.

(* ================================================================== *)
(** ** Objects *)
(* ================================================================== *)

Section ObjectFacts.

Import Sdk.
Context {other : Type}.
Implicit Types (o this data : Object other) (k : string) (v : Value other).

Lemma read_write_same o k v : read (write o k v) k = v.
Proof.
  induction o as [|[k' v'] o IH]; simpl.
  - now rewrite String.eqb_refl.
  - destruct (String.eqb k' k) eqn:E; simpl.
    + now rewrite String.eqb_refl.
    + now rewrite E.
Qed.

Lemma read_write_other o k k' v : k <> k' -> read (write o k v) k' = read o k'.
Proof.
  intro N. induction o as [|[k0 v0] o IH]; simpl.
  - apply String.eqb_neq in N. now rewrite N.
  - destruct (String.eqb k0 k) eqn:E; simpl.
    + apply String.eqb_eq in E. subst k0.
      apply String.eqb_neq in N. now rewrite N.
    + destruct (String.eqb k0 k'); [reflexivity|exact IH].
Qed.

Lemma keys_write o k v k' : In k' (keys (write o k v)) -> k' = k \/ In k' (keys o).
Proof.
  induction o as [|[k0 v0] o IH]; simpl.
  - intros [H|[]]. now left.
  - destruct (String.eqb k0 k) eqn:E; simpl.
    + intros [H|H]; [now left|right; now right].
    + intros [H|H]; [right; now left|].
      destruct (IH H) as [K|K]; [now left|right; now right].
Qed.

Lemma read_present data k v :
  NoDup (keys data) -> In (k, v) data -> read data k = v.
Proof.
  induction data as [|[k0 v0] data IH]; simpl; intros N H; [easy|].
  inversion N as [|? ? Hk0 N']; subst.
  destruct H as [H|H].
  - injection H as -> ->. now rewrite String.eqb_refl.
  - destruct (String.eqb k0 k) eqn:E.
    + apply String.eqb_eq in E. subst k0.
      exfalso. apply Hk0. apply (in_map fst) in H. exact H.
    + now apply IH.
Qed.

(** Assignments to other keys leave the property [k] as it is. *)
Lemma read_assignments_absent data :
  forall this k,
    ~ In k (keys data) ->
    read (fold_left (fun t kv => assign t (fst kv) (snd kv)) data this) k
    = read this k.
Proof.
  induction data as [|[k0 v0] data IH]; simpl; intros this k N; [reflexivity|].
  rewrite IH by tauto. unfold assign.
  destruct (String.eqb k0 "__proto__"); [reflexivity|].
  apply read_write_other. tauto.
Qed.

(** The assignment to [k], once made, is what [k] reads. *)
Lemma read_assignments_present data :
  forall this k v,
    NoDup (keys data) -> In (k, v) data -> k <> "__proto__" ->
    read (fold_left (fun t kv => assign t (fst kv) (snd kv)) data this) k = v.
Proof.
  induction data as [|[k0 v0] data IH]; simpl; intros this k v N H P; [easy|].
  inversion N as [|? ? Hk0 N']; subst.
  destruct H as [H|H].
  - injection H as -> ->.
    rewrite read_assignments_absent by exact Hk0.
    unfold assign. apply String.eqb_neq in P. rewrite P.
    apply read_write_same.
  - now apply IH.
Qed.

(** No assignment makes a property [__proto__]. *)
Lemma keys_assignments data :
  forall this k,
    In k (keys (fold_left (fun t kv => assign t (fst kv) (snd kv)) data this)) ->
    In k (keys this) \/ (In k (keys data) /\ k <> "__proto__").
Proof.
  induction data as [|[k0 v0] data IH]; simpl; intros this k H; [now left|].
  destruct (IH _ _ H) as [K|[K P]]; [|right; split; [now right|exact P]].
  unfold assign in K.
  destruct (String.eqb k0 "__proto__") eqn:E; [now left|].
  apply keys_write in K as [->|K]; [|now left].
  right. split; [now left|]. now apply String.eqb_neq.
Qed.

(** Two instances that read alike go on reading alike under the same
    assignments. *)
Lemma read_assignments_alike data :
  forall this this',
    (forall k, read this k = read this' k) ->
    forall k,
      read (fold_left (fun t kv => assign t (fst kv) (snd kv)) data this) k
      = read (fold_left (fun t kv => assign t (fst kv) (snd kv)) data this') k.
Proof.
  induction data as [|[k0 v0] data IH]; simpl; intros this this' H; [exact H|].
  apply IH. intro k. unfold assign.
  destruct (String.eqb k0 "__proto__"); [apply H|].
  destruct (string_dec k0 k) as [->|N].
  - now rewrite !read_write_same.
  - now rewrite !read_write_other.
Qed.

Lemma read_declared (b : bool) (fields : list string) k :
  read (declared other b fields) k = VUndefined.
Proof.
  unfold declared. destruct b; [|reflexivity].
  induction fields as [|f fields IH]; simpl; [reflexivity|].
  destruct (String.eqb f k); [reflexivity|exact IH].
Qed.

Lemma keys_declared (b : bool) (fields : list string) k :
  In k (keys (declared other b fields)) -> In k fields.
Proof.
  unfold declared, keys. destruct b; [|intros []].
  rewrite map_map. simpl. now rewrite map_id.
Qed.

End ObjectFacts.

(* ================================================================== *)
(** ** The containers and the client *)
(* ================================================================== *)

Section SdkFacts.

Import Sdk.
Context {other : Type}.
Variable other_truthy : other -> bool.
Variable other_toString : other -> string.
Variable useDefineForClassFields : bool.

Local Abbreviation error_check := (Sdk.error_check other_truthy other_toString).
Local Abbreviation flagged := (Sdk.flagged other_truthy).
Local Abbreviation failure := (Sdk.failure other_toString).
Local Abbreviation checked := (Sdk.checked other_truthy other_toString).
Local Abbreviation User := (Sdk.User useDefineForClassFields).
Local Abbreviation Session := (Sdk.Session useDefineForClassFields).
Local Abbreviation user :=
  (Sdk.user other_truthy other_toString useDefineForClassFields).
Local Abbreviation update_password :=
  (Sdk.update_password other_truthy other_toString useDefineForClassFields).
Local Abbreviation session :=
  (Sdk.session other_truthy other_toString useDefineForClassFields).
Local Abbreviation validate :=
  (Sdk.validate other_truthy other_toString useDefineForClassFields).

Lemma read_absent (o : Object other) (k : string) :
  ~ In k (keys o) -> read o k = VUndefined.
Proof.
  induction o as [|[k0 v0] o IH]; simpl; intro N; [reflexivity|].
  destruct (String.eqb k0 k) eqn:E.
  - apply String.eqb_eq in E. tauto.
  - apply IH. tauto.
Qed.

Lemma error_check_settles (response : Object other) :
  settles (error_check response)
  = if flagged response then Throw (failure response) else Return tt.
Proof.
  unfold Sdk.error_check, Sdk.flagged, Sdk.failure.
  destruct (_ || _)%bool; reflexivity.
Qed.

(** A request whose response is logged, checked and wrapped. *)
Lemma checked_request (m : Method) (api : HttpClient other)
  (endpoint : string) (data : option (Object other)) (fmt : string)
  (C : Object other -> Object other) :
  let t := next (await m api endpoint data) (fun x =>
           next (debug fmt x) (fun _ =>
           next (error_check x) (fun _ => resolve (C x)))) in
  settles t = checked (settles (await m api endpoint data)) C
  /\ events t
     = Request m endpoint data ::
       match settles (await m api endpoint data) with
       | Return response => [Debug fmt response]
       | Throw _ => []
       end.
Proof.
  unfold await, settles, events, next, debug, Sdk.checked. cbn [snd fst].
  destruct (match m with POST => _ | PUT => _ | GET => _ end) as [x|e];
    [|split; reflexivity].
  pose proof (error_check_settles x) as E. unfold settles in E.
  destruct (error_check x) as [l c] eqn:K. cbn [snd] in E. subst c.
  assert (l = []) as ->.
  { unfold Sdk.error_check in K.
    destruct (_ || _)%bool; injection K as <- _; reflexivity. }
  destruct (flagged x); split; reflexivity.
Qed.

(** X4.  [error_check] lets a response pass exactly when neither its
    [status] nor its [error] is truthy; a response that holds neither key
    passes whatever else it holds, its [message] included.  The error raised
    otherwise reads [<status> <error>: <message>], with [undefined] for what
    the response lacks.  Nothing is logged, nothing is sent. *)
Theorem error_check_verdict (response : Object other) :
  (settles (error_check response) = Return tt <->
     ToBoolean other_truthy (read response "status") = false
     /\ ToBoolean other_truthy (read response "error") = false)
  /\ (forall e, settles (error_check response) = Throw e <->
        (ToBoolean other_truthy (read response "status") = true
         \/ ToBoolean other_truthy (read response "error") = true)
        /\ e = mkError (ToString other_toString (read response "status")
                        ++ " "
                        ++ ToString other_toString (read response "error")
                        ++ ": "
                        ++ ToString other_toString (read response "message")))
  /\ (~ In "status" (keys response) -> ~ In "error" (keys response) ->
      settles (error_check response) = Return tt)
  /\ (~ In "status" (keys response) ->
      forall e, settles (error_check response) = Throw e ->
      exists rest, message e = "undefined " ++ rest)
  /\ events (error_check response) = [].
Proof.
  rewrite error_check_settles. unfold Sdk.flagged, Sdk.failure.
  split; [|split; [|split; [|split]]].
  - destruct (ToBoolean other_truthy (read response "status")),
             (ToBoolean other_truthy (read response "error"));
      simpl; split; try discriminate; try tauto; intros [? ?]; discriminate.
  - intro e.
    destruct (ToBoolean other_truthy (read response "status")),
             (ToBoolean other_truthy (read response "error"));
      simpl; split;
      try (intro H; injection H as <-; split; [tauto|reflexivity]);
      try (intros [_ ->]; reflexivity);
      try discriminate; intros [[H|H] _]; discriminate.
  - intros Hs He. now rewrite (read_absent _ _ Hs), (read_absent _ _ He).
  - intros Hs e. rewrite (read_absent _ _ Hs). simpl.
    destruct (ToBoolean other_truthy (read response "error"));
      [|discriminate].
    intro H. injection H as <-. simpl. eauto.
  - unfold Sdk.error_check, events.
    destruct (_ || _)%bool; reflexivity.
Qed.

(** X5.  A container carries its data: every property of the data, but one
    named [__proto__], reads on the new [User] or [Session] as it reads on
    the data, and the container gets no property named [__proto__]. *)
Theorem containers_carry_data (data : Object other) :
  NoDup (keys data) ->
  (forall k v, In (k, v) data -> k <> "__proto__" ->
     read (User data) k = v /\ read (Session data) k = v)
  /\ ~ In "__proto__" (keys (User data))
  /\ ~ In "__proto__" (keys (Session data)).
Proof.
  intro N. split; [|split].
  - intros k v H P. split; now apply read_assignments_present.
  - intro H. apply keys_assignments in H as [H|[_ H]]; [|now apply H].
    apply keys_declared in H. simpl in H.
    destruct H as [H|[]]; discriminate H.
  - intro H. apply keys_assignments in H as [H|[_ H]]; [|now apply H].
    apply keys_declared in H. simpl in H.
    destruct H as [H|[H|[]]]; discriminate H.
Qed.

(** X6.  [user] and [update_password] send one request, log the response
    when there is one, and settle as the check of that response tells:
    they reject with the error of the request, or with the error that
    [error_check] builds from a response whose [status] or [error] is
    truthy, and resolve to the [User] of any other response. *)
Theorem credentials_settle (this : Collection other)
  (password credential_id current_password new_password : string) :
  let created :=
    post (api this) ("/collections/" ++ collection_id this ++ "/credentials")
      (Some [("password", VString password)]) in
  let updated :=
    put (api this) ("/credentials/" ++ credential_id)
      (Some [("current_password", VString current_password);
             ("password", VString new_password)]) in
  settles (user this password) = checked created User
  /\ events (user this password)
     = Request POST ("/collections/" ++ collection_id this ++ "/credentials")
         (Some [("password", VString password)])
       :: match created with
          | Return r => [Debug "POST credentials response: %s" r]
          | Throw _ => []
          end
  /\ settles (update_password this credential_id current_password new_password)
     = checked updated User
  /\ events (update_password this credential_id current_password new_password)
     = Request PUT ("/credentials/" ++ credential_id)
         (Some [("current_password", VString current_password);
                ("password", VString new_password)])
       :: match updated with
          | Return r => [Debug "PUT credentials response: %s" r]
          | Throw _ => []
          end.
Proof.
  intros created updated.
  destruct (checked_request POST (api this)
              ("/collections/" ++ collection_id this ++ "/credentials")
              (Some [("password", VString password)])
              "POST credentials response: %s" User) as [S1 E1].
  destruct (checked_request PUT (api this) ("/credentials/" ++ credential_id)
              (Some [("current_password", VString current_password);
                     ("password", VString new_password)])
              "PUT credentials response: %s" User) as [S2 E2].
  repeat split; assumption.
Qed.

(** X7.  [session] and [validate] likewise: one request, the response
    logged, and the call settled by the check of the response, which is
    wrapped in a [Session] when it passes.  [validate] sends the two
    strings of the context and compares nothing itself. *)
Theorem sessions_settle (this : Collection other)
  (credential_id password id ip_address user_agent : string) :
  let opened :=
    post (api this) ("/credentials/" ++ credential_id ++ "/sessions")
      (Some [("password", VString password);
             ("ip_address", VString ip_address);
             ("user_agent", VString user_agent)]) in
  let found :=
    get (api this) ("/sessions/" ++ id)
      (Some [("ip_address", VString ip_address);
             ("user_agent", VString user_agent)]) in
  settles (session this credential_id password ip_address user_agent)
  = checked opened Session
  /\ events (session this credential_id password ip_address user_agent)
     = Request POST ("/credentials/" ++ credential_id ++ "/sessions")
         (Some [("password", VString password);
                ("ip_address", VString ip_address);
                ("user_agent", VString user_agent)])
       :: match opened with
          | Return r => [Debug "POST sessions response: %s" r]
          | Throw _ => []
          end
  /\ settles (validate this id ip_address user_agent) = checked found Session
  /\ events (validate this id ip_address user_agent)
     = Request GET ("/sessions/" ++ id)
         (Some [("ip_address", VString ip_address);
                ("user_agent", VString user_agent)])
       :: match found with
          | Return r => [Debug "GET session response: %s" r]
          | Throw _ => []
          end.
Proof.
  intros opened found.
  destruct (checked_request POST (api this)
              ("/credentials/" ++ credential_id ++ "/sessions")
              (Some [("password", VString password);
                     ("ip_address", VString ip_address);
                     ("user_agent", VString user_agent)])
              "POST sessions response: %s" Session) as [S1 E1].
  destruct (checked_request GET (api this) ("/sessions/" ++ id)
              (Some [("ip_address", VString ip_address);
                     ("user_agent", VString user_agent)])
              "GET session response: %s" Session) as [S2 E2].
  repeat split; assumption.
Qed.

End SdkFacts.

Section ClientFacts.

Import Sdk.
Context {other : Type}.
Variable other_truthy : other -> bool.
Variable other_toString : other -> string.
Variable http_client_create :
  string -> list (string * string) -> HttpClient other.
Variable useDefineForClassFields : bool.

Local Abbreviation error_check := (Sdk.error_check other_truthy other_toString).
Local Abbreviation flagged := (Sdk.flagged other_truthy).
Local Abbreviation failure := (Sdk.failure other_toString).
Local Abbreviation checked := (Sdk.checked other_truthy other_toString).
Local Abbreviation User := (Sdk.User useDefineForClassFields).
Local Abbreviation Session := (Sdk.Session useDefineForClassFields).
Local Abbreviation user :=
  (Sdk.user other_truthy other_toString useDefineForClassFields).
Local Abbreviation update_password :=
  (Sdk.update_password other_truthy other_toString useDefineForClassFields).
Local Abbreviation session :=
  (Sdk.session other_truthy other_toString useDefineForClassFields).
Local Abbreviation validate :=
  (Sdk.validate other_truthy other_toString useDefineForClassFields).
Local Abbreviation legacy_user :=
  (Sdk.legacy_user other_truthy other_toString).
Local Abbreviation legacy_update_password :=
  (Sdk.legacy_update_password other_truthy other_toString).
Local Abbreviation legacy_session :=
  (Sdk.legacy_session other_truthy other_toString).
Local Abbreviation legacy_validate :=
  (Sdk.legacy_validate other_truthy other_toString).

(** A response that passes the check is carried by its container. *)
Lemma checked_carries (r : completion (Object other))
  (C : Object other -> Object other) (response : Object other) :
  r = Return response -> flagged response = false ->
  (forall k v, In (k, v) response -> k <> "__proto__" ->
               read (C response) k = v) ->
  exists u, checked r C = Return u
            /\ forall k v, In (k, v) response -> k <> "__proto__" ->
                           read u k = v.
Proof.
  intros -> F H. exists (C response). unfold Sdk.checked. rewrite F. auto.
Qed.

(** X8.  When the service answers a request with a response that passes the
    check, the call resolves to an object on which every property of the
    response, but one named [__proto__], reads as it reads on the response:
    the [id] of a credential or of a session, and whatever else the service
    sent. *)
Theorem resolved_calls_carry_response (this : Collection other)
  (response : Object other)
  (N : NoDup (keys response)) (F : flagged response = false) :
  (forall password,
      post (api this) ("/collections/" ++ collection_id this ++ "/credentials")
        (Some [("password", VString password)]) = Return response ->
      exists u, settles (user this password) = Return u
                /\ forall k v, In (k, v) response -> k <> "__proto__" ->
                               read u k = v)
  /\ (forall credential_id current_password password,
        put (api this) ("/credentials/" ++ credential_id)
          (Some [("current_password", VString current_password);
                 ("password", VString password)]) = Return response ->
        exists u,
          settles (update_password this credential_id current_password password)
          = Return u
          /\ forall k v, In (k, v) response -> k <> "__proto__" ->
                         read u k = v)
  /\ (forall credential_id password ip_address user_agent,
        post (api this) ("/credentials/" ++ credential_id ++ "/sessions")
          (Some [("password", VString password);
                 ("ip_address", VString ip_address);
                 ("user_agent", VString user_agent)]) = Return response ->
        exists u,
          settles (session this credential_id password ip_address user_agent)
          = Return u
          /\ forall k v, In (k, v) response -> k <> "__proto__" ->
                         read u k = v)
  /\ (forall id ip_address user_agent,
        get (api this) ("/sessions/" ++ id)
          (Some [("ip_address", VString ip_address);
                 ("user_agent", VString user_agent)]) = Return response ->
        exists u,
          settles (validate this id ip_address user_agent) = Return u
          /\ forall k v, In (k, v) response -> k <> "__proto__" ->
                         read u k = v).
Proof.
  assert (HU : forall k v, In (k, v) response -> k <> "__proto__" ->
                           read (User response) k = v).
  { intros k v H P. now apply read_assignments_present. }
  assert (HS : forall k v, In (k, v) response -> k <> "__proto__" ->
                           read (Session response) k = v).
  { intros k v H P. now apply read_assignments_present. }
  split; [|split; [|split]].
  - intros password H.
    destruct (checked_request other_truthy other_toString POST (api this)
                ("/collections/" ++ collection_id this ++ "/credentials")
                (Some [("password", VString password)])
                "POST credentials response: %s" User) as [S _].
    unfold Sdk.user. rewrite S.
    exact (checked_carries _ User response H F HU).
  - intros credential_id current_password password H.
    destruct (checked_request other_truthy other_toString PUT (api this)
                ("/credentials/" ++ credential_id)
                (Some [("current_password", VString current_password);
                       ("password", VString password)])
                "PUT credentials response: %s" User) as [S _].
    unfold Sdk.update_password. rewrite S.
    exact (checked_carries _ User response H F HU).
  - intros credential_id password ip_address user_agent H.
    destruct (checked_request other_truthy other_toString POST (api this)
                ("/credentials/" ++ credential_id ++ "/sessions")
                (Some [("password", VString password);
                       ("ip_address", VString ip_address);
                       ("user_agent", VString user_agent)])
                "POST sessions response: %s" Session) as [S _].
    unfold Sdk.session. rewrite S.
    exact (checked_carries _ Session response H F HS).
  - intros id ip_address user_agent H.
    destruct (checked_request other_truthy other_toString GET (api this)
                ("/sessions/" ++ id)
                (Some [("ip_address", VString ip_address);
                       ("user_agent", VString user_agent)])
                "GET session response: %s" Session) as [S _].
    unfold Sdk.validate. rewrite S.
    exact (checked_carries _ Session response H F HS).
Qed.

(** X9.  [Collection.create] hands back whatever the service answers: it
    does not check the response, so a response whose [status] or [error] is
    truthy, on which [error_check] raises, is what the call resolves to.
    It sends one request, without the [Authorization] header, and logs
    nothing. *)
Theorem create_returns_unchecked (config : Config) (response : Object other)
  (H : post (http_client_create (API_BASE_URL config)
               [("Content-Type", "application/json")])
         "/collections" None = Return response) :
  settles (create http_client_create config) = Return response
  /\ events (create http_client_create config)
     = [Request POST "/collections" None]
  /\ (flagged response = true ->
      settles (error_check response) = Throw (failure response)).
Proof.
  split; [exact H|split; [reflexivity|]].
  intro F. now rewrite error_check_settles, F.
Qed.


End ClientFacts.

(* ================================================================== *)
(** ** The client on canned responses *)
(* ================================================================== *)

Section canned_service.

Import Sdk.

Example user_resolves_to_the_credential :
  settles (user json_truthy json_toString false
             (client (Return created)) "Passw0rd!")
  = Return [("id", VString "Auth_U1-kQ3x")].
Proof. reflexivity. Qed.

Example session_rejects_a_flagged_response :
  settles (session json_truthy json_toString false
             (client (Return unauthorized)) "Auth_U1-kQ3x" "wrong"
             "95.107.167.200" "Mozilla/5.0")
  = Throw (mkError "401 Unauthorized: Password mismatch").
Proof. reflexivity. Qed.

Example validate_passes_the_rejection_on :
  validate json_truthy json_toString false
    (client (Throw (mkError "ECONNREFUSED"))) "sess" "95.107.167.200"
    "Mozilla/5.0"
  = ([Request GET "/sessions/sess"
        (Some [("ip_address", VString "95.107.167.200");
               ("user_agent", VString "Mozilla/5.0")])],
     Throw (mkError "ECONNREFUSED")).
Proof. reflexivity. Qed.

Example error_check_reads_undefined :
  settles (error_check json_truthy json_toString [("error", VString "Nope")])
  = Throw (mkError "undefined Nope: undefined").
Proof. reflexivity. Qed.

Example error_check_passes_falsy_flags :
  settles (error_check json_truthy json_toString
             [("status", VOther (JNumber 0)); ("error", VString "");
              ("message", VString "all is lost")])
  = Return tt.
Proof. reflexivity. Qed.

(** A response with an own key [__proto__], as a parsed body may have. *)
Lemma containers_carry_data_witness :
  read (User true [("id", VString "Auth_U1-kQ3x");
                   ("__proto__", VOther JNull);
                   ("created", VString "2020-05-01")]) "created"
  = @VString Json "2020-05-01"
  /\ read (Session false [("id", VString "Auth_U1-kQ3x");
                          ("__proto__", VOther JNull);
                          ("created", VString "2020-05-01")]) "created"
     = @VString Json "2020-05-01".
Proof.
  assert (N : NoDup (keys [("id", @VString Json "Auth_U1-kQ3x");
                           ("__proto__", VOther JNull);
                           ("created", VString "2020-05-01")])).
  { repeat constructor; simpl; intuition discriminate. }
  split.
  - apply (proj1 (containers_carry_data true _ N) "created").
    + right; right; left; reflexivity.
    + discriminate.
  - apply (proj1 (containers_carry_data false _ N) "created").
    + right; right; left; reflexivity.
    + discriminate.
Defined.

(** The credential that the service created, read from the [User]. *)
Lemma resolved_calls_carry_response_witness :
  exists u,
    settles (user json_truthy json_toString true
               (client (Return created)) "Passw0rd!") = Return u
    /\ read u "id" = VString "Auth_U1-kQ3x".
Proof.
  assert (N : NoDup (keys created)).
  { repeat constructor; simpl; intuition. }
  destruct (resolved_calls_carry_response json_truthy json_toString true
              (client (Return created)) created N eq_refl) as [H _].
  destruct (H "Passw0rd!" eq_refl) as [u [S R]].
  exists u. split; [exact S|].
  apply (R "id"); [left; reflexivity|discriminate].
Defined.

(** A service that refuses: [create] resolves to the refusal, which
    [error_check] would have raised. *)
Lemma create_returns_unchecked_witness :
  settles (create (canned (Return unauthorized)) config) = Return unauthorized
  /\ settles (error_check json_truthy json_toString unauthorized)
     = Throw (mkError "401 Unauthorized: Password mismatch").
Proof.
  destruct (create_returns_unchecked json_truthy json_toString
              (canned (Return unauthorized)) config unauthorized eq_refl)
    as (S & _ & E).
  split; [exact S|exact (E eq_refl)].
Defined.

End canned_service.
